(** * botasaurus_driver: the DOM query engine of [core/tab.py] and the
      storage identifier of [cdp/dom_storage.py]

    A shallow embedding of the query layer of [Tab] (selector and text lookup,
    polling, stale-node recovery, script evaluation, object dump, the call
    alias) and of [StorageId.to_json].

    Conventions of the embedding
    - Python coroutines become functions of a small state-and-exception monad
      [M] over a [World]: the event-loop clock, the number of awaited
      operations, the trace of effects and the store of the node objects that
      callers hold references to.
    - The browser and the helper modules that are not part of these sources
      ([element], [util], [connection]) form the environment [Env]: what the
      remote side replies to the n-th awaited operation, how long that
      operation takes, what a refresh of a node yields.
    - Time is counted in milliseconds ([Z]); the retry interval 0.5 s is 500.
      Floating point rounding of [loop.time()] is not modelled.
    - Recursion that Python leaves unbounded (the polling loops, the retry in
      [query_selector]) takes a [fuel] argument; [OutOfFuel] is the outcome of
      a run that was cut short, never of a run that finished. *)

From Stdlib Require Import ZArith NArith Lia Ascii String List Bool.
From stdpp Require Import base option strings gmap list pretty.

Local Open Scope string_scope.
Local Open Scope Z_scope.
Local Open Scope list_scope.
Import ListNotations.

(* ===================================================================== *)
(** ** Python values and strings *)
(* ===================================================================== *)

(** The scalar Python values the engine inspects for truthiness or stores in
    a JSON dictionary. *)
Inductive PyVal : Type :=
| PyNone
| PyBool (b : bool)
| PyInt (z : Z)
| PyStr (s : string).

(** [bool(v)]. *)
Definition truthy (v : PyVal) : bool :=
  match v with
  | PyNone => false
  | PyBool b => b
  | PyInt z => negb (z =? 0)
  | PyStr s => negb (String.eqb s "")
  end.

(** [str.lower()] on the ASCII range; other bytes are left as they are. *)
Definition lower_ascii (c : ascii) : ascii :=
  let n := nat_of_ascii c in
  if ((65 <=? n)%nat && (n <=? 90)%nat)%bool then ascii_of_nat (n + 32)%nat else c.

Fixpoint lower (s : string) : string :=
  match s with
  | EmptyString => EmptyString
  | String c rest => String (lower_ascii c) (lower rest)
  end.

(** [needle in hay] for strings. *)
Fixpoint contains (needle hay : string) : bool :=
  String.prefix needle hay ||
  match hay with
  | EmptyString => false
  | String _ rest => contains needle rest
  end.

(** Truthiness of an optional string argument such as [type], [selector],
    [node_name]: [None] and the empty string are falsy. *)
Definition str_truthy (s : string) : bool := negb (String.eqb s "").

Definition opt_str_truthy (o : option string) : bool :=
  match o with
  | None => false
  | Some s => str_truthy s
  end.

(* ===================================================================== *)
(** ** cdp/dom_storage.py *)
(* ===================================================================== *)

Module DomStorage.

(** [class SerializedStorageKey(str)]: [to_json] returns the string. *)
Definition SerializedStorageKey := string.

Definition SerializedStorageKey_to_json (k : SerializedStorageKey) : string := k.

Record StorageId : Type := mkStorageId {
  is_local_storage : bool;
  security_origin : option string;
  storage_key : option SerializedStorageKey;
}.

(** [StorageId.to_json]: a fresh dict, one unconditional store and two
    stores guarded by [is not None]. *)
Definition to_json (self : StorageId) : gmap string PyVal :=
  let json : gmap string PyVal := ∅ in
  let json := <["isLocalStorage" := PyBool (is_local_storage self)]> json in
  let json :=
    match security_origin self with
    | Some origin => <["securityOrigin" := PyStr origin]> json
    | None => json
    end in
  let json :=
    match storage_key self with
    | Some key => <["storageKey" := PyStr (SerializedStorageKey_to_json key)]> json
    | None => json
    end in
  json.

End DomStorage.

(* ===================================================================== *)
(** ** The node and element snapshots *)
(* ===================================================================== *)

#[local] Set Warnings "-register-all".

(** [cdp.dom.Node], with the fields the engine reads. *)
Inductive Node : Type := mkNode {
  node_id : Z;
  node_type : Z;
  node_name : string;
  content_document : option Node;
}.

(** [element.Element]: the wrapped node, what its [parent] property yields
    and its [text]. *)
Inductive Element : Type := mkElement {
  node : Node;
  parent : option Element;
  text : string;
}.

Definition elem_node_type (elem : Element) : Z := node_type (node elem).

(** [bannedtextsearchresults], [isbanned], [issametype]. *)
Definition bannedtextsearchresults : gset string :=
  list_to_set ["title"; "meta"; "script"; "link"; "style"; "head"].

Definition isbanned (n : Node) : bool :=
  bool_decide (lower (node_name n) ∈ bannedtextsearchresults).

Definition issametype (n : Node) (type : string) : bool :=
  String.eqb (lower (node_name n)) type.

(** [append_safe(results, elem, text, exact_match)]; the list is returned
    instead of being mutated in place. *)
Definition append_safe (results : list Element) (elem : Element)
    (text0 : string) (exact_match : bool) : list Element :=
  if exact_match then
    if String.eqb text0 (text elem) then results ++ [elem] else results
  else results ++ [elem].

(* ===================================================================== *)
(** ** Exceptions, outcomes and the world *)
(* ===================================================================== *)

(** [cdp.runtime.ExceptionDetails] and [cdp.runtime.RemoteObject]. *)
Record ExceptionDetails : Type := mkExceptionDetails {
  exception_id : Z;
  exception_text : string;
}.

Record RemoteObject : Type := mkRemoteObject {
  value : PyVal;
}.

Inductive Exn : Type :=
| ProtocolException (message : string)
| DriverException (message : string)
| ElementWithSelectorNotFoundException (selector : string)
| JavascriptException (details : ExceptionDetails)
| JavascriptSyntaxException
| AttributeError (attribute : string)
| TypeError (what : string)
| ElementCreateError
| JSONDecodeError.

Inductive Outcome (A : Type) : Type :=
| Return (a : A)
| Raise (e : Exn)
| OutOfFuel.

Arguments Return {A} a.
Arguments Raise {A} e.
Arguments OutOfFuel {A}.

(** How [json.loads(...).get("x")] fails on a value it cannot decode: the
    text is not JSON ([JSONDecodeError]), the value is no text at all
    ([TypeError]), or the JSON is not an object, so that [.get] is missing
    ([AttributeError]). *)
Inductive DecodeFailure : Type :=
| NotJson
| NotText
| NotAnObject.

Definition decode_error (failure : DecodeFailure) : Exn :=
  match failure with
  | NotJson => JSONDecodeError
  | NotText => TypeError "the JSON object must be str, bytes or bytearray"
  | NotAnObject => AttributeError "get"
  end.

(** The scripts handed to [Runtime.evaluate]: the envelope that [evaluate]
    wraps around the caller's expression, and the two dump scripts of
    [js_dumps], each with the object name substituted. *)
Inductive Script : Type :=
| Envelope (expression : string)
| js_code_a (obj_name : string)
| js_code_b (obj_name : string).

(** The protocol commands the engine sends. *)
Inductive Command : Type :=
| GetDocument
| QuerySelector (nid : Z) (selector : string)
| QuerySelectorAll (nid : Z) (selector : string)
| PerformSearch (query : string)
| GetSearchResults (search_id : string) (from_index to_index : Z)
| DiscardSearchResults (search_id : string)
| DomDisable
| RuntimeEvaluate (script : Script) (await_promise return_by_value : bool).

(** References to the node objects a caller passes as [_node]. *)
Definition ref := positive.

(** What a run does, in order. *)
Inductive Event : Type :=
| EvSend (c : Command)
| EvAwaitTab
| EvSleep (ms : Z)
| EvUpdate (r : ref)
| EvElementUpdate (nid : Z).

(** A node object held by reference: the snapshot it wraps and the entries
    that [getattr], attribute assignment and [del] see on it. *)
Record NodeObj : Type := mkNodeObj {
  obj_node : Node;
  obj_dict : gmap string PyVal;
}.

Record World : Type := mkWorld {
  clock : Z;
  steps : nat;
  trace : list Event;
  heap : gmap ref NodeObj;
}.

(** A protocol reply: a decoded result or a [ProtocolException]. *)
Inductive Reply (A : Type) : Type :=
| Ok (a : A)
| Fail (message : string).

Arguments Ok {A} a.
Arguments Fail {A} message.

(** The external collaborators.  Every [on_...] field is indexed by the
    number of operations awaited so far, so a browser may answer the same
    command differently over time. *)
Record Env : Type := mkEnv {
  on_get_document : nat -> Reply (option Node);
  on_query_selector : nat -> Z -> string -> Reply Z;
  on_query_selector_all : nat -> Z -> string -> Reply (list Z);
  on_perform_search : nat -> string -> Reply (string * Z);
  on_get_search_results : nat -> string -> Z -> Z -> Reply (list Z);
  on_discard_search_results : nat -> string -> Reply unit;
  on_disable : nat -> Reply unit;
  on_evaluate : nat -> Script -> Reply (option (RemoteObject * option ExceptionDetails));
  (** [_node.update()] and [elem.update()]: the refreshed snapshot. *)
  on_update : nat -> Node -> Node;
  on_element_update : nat -> Element -> Element;
  (** how long the n-th awaited operation takes; the clock is monotonic *)
  latency : nat -> N;
  (** [util.filter_recurse(doc, predicate)] *)
  filter_recurse : option Node -> (Node -> bool) -> option Node;
  (** [element.create(node, tab, tree)], [None] when it raises *)
  create : option Node -> option Node -> option Element;
  (** [json.loads(util.get_remote_object_value(remote_object)).get("x")]:
      the decoded member, or the way the decoding fails *)
  decode_x : RemoteObject -> DecodeFailure + PyVal;
}.

(** The monad of coroutines. *)
Definition M (A : Type) : Type := World -> Outcome A * World.

Definition ret {A} (a : A) : M A := fun w => (Return a, w).

Definition raise {A} (e : Exn) : M A := fun w => (Raise e, w).

Definition out_of_fuel {A} : M A := fun w => (OutOfFuel, w).

Definition bind {A B} (c : M A) (k : A -> M B) : M B :=
  fun w =>
    match c w with
    | (Return a, w') => k a w'
    | (Raise e, w') => (Raise e, w')
    | (OutOfFuel, w') => (OutOfFuel, w')
    end.

Notation "x <- c ;; k" := (bind c (fun x => k))
  (at level 100, c at next level, right associativity).
Notation "c ;;; k" := (bind c (fun _ => k))
  (at level 100, right associativity).

(** [try: c  except ProtocolException as e: handler(e.message)]. *)
Definition catch_protocol {A} (c : M A) (handler : string -> M A) : M A :=
  fun w =>
    match c w with
    | (Raise (ProtocolException message), w') => handler message w'
    | r => r
    end.

(** [try: c  finally: f]. *)
Definition finally {A} (c : M A) (f : M unit) : M A :=
  fun w =>
    match c w with
    | (OutOfFuel, w') => (OutOfFuel, w')
    | (r, w') =>
        match f w' with
        | (Return _, w'') => (r, w'')
        | (Raise e, w'') => (Raise e, w'')
        | (OutOfFuel, w'') => (OutOfFuel, w'')
        end
    end.

(** Private-name mangling.  [Tab] writes [_node.__last] inside its class
    body, so Python compiles the attribute name to [_Tab__last]; the string
    handed to [getattr] is not an identifier and stays ["__last"]. *)
Definition mangle (class_name attribute : string) : string :=
  ("_" ++ class_name ++ attribute)%string.

Definition Tab__last : string := Eval cbv in mangle "Tab" "__last".

(** What [query_selector] hands back: [None], the list [[]] of its guard
    branch, or an element. *)
Inductive Item : Type :=
| ItemNone
| ItemEmptyList
| ItemElement (elem : Element).

Definition item_truthy (item : Item) : bool :=
  match item with
  | ItemElement _ => true
  | _ => false
  end.

(** What [evaluate] and [js_dumps] hand back: nothing, a decoded value, or the
    pair of protocol objects. *)
Inductive Evaluated : Type :=
| EvNothing
| EvValue (v : PyVal)
| EvObjects (remote_object : RemoteObject) (errors : option ExceptionDetails).

(* ===================================================================== *)
(** ** core/tab.py *)
(* ===================================================================== *)

Section Model.

Variable E : Env.

(** *** Primitive effects *)

(** One awaited operation: time passes, the operation is recorded. *)
Definition tick (ev : Event) (w : World) : World :=
  {| clock := clock w + Z.of_N (latency E (steps w));
     steps := S (steps w);
     trace := trace w ++ [ev];
     heap := heap w |}.

(** [await self.send(command)]. *)
Definition send {A} (c : Command) (reply : nat -> Reply A) : M A :=
  fun w =>
    match reply (steps w) with
    | Ok a => (Return a, tick (EvSend c) w)
    | Fail message => (Raise (ProtocolException message), tick (EvSend c) w)
    end.

(** [loop.time()]. *)
Definition loop_time : M Z := fun w => (Return (clock w), w).

(** [await self]. *)
Definition await_tab : M unit := fun w => (Return tt, tick EvAwaitTab w).

(** [await self.sleep(t)]: at least [ms] milliseconds pass. *)
Definition sleep (ms : Z) : M unit :=
  fun w =>
    let w' := tick (EvSleep ms) w in
    (Return tt,
     {| clock := clock w' + ms; steps := steps w';
        trace := trace w'; heap := heap w' |}).

Definition load (r : ref) : M NodeObj :=
  fun w =>
    match heap w !! r with
    | Some o => (Return o, w)
    | None => (Raise (TypeError "dangling node reference"), w)
    end.

Definition store (r : ref) (o : NodeObj) : M unit :=
  fun w =>
    (Return tt,
     {| clock := clock w; steps := steps w; trace := trace w;
        heap := <[r := o]> (heap w) |}).

(** [getattr(obj, name, None)]. *)
Definition getattr (r : ref) (name : string) : M PyVal :=
  o <- load r ;;
  ret (default PyNone (obj_dict o !! name)).

(** [obj.name = v]. *)
Definition setattr (r : ref) (name : string) (v : PyVal) : M unit :=
  o <- load r ;;
  store r {| obj_node := obj_node o; obj_dict := <[name := v]> (obj_dict o) |}.

(** [del obj.name]. *)
Definition delattr (r : ref) (name : string) : M unit :=
  o <- load r ;;
  match obj_dict o !! name with
  | None => raise (AttributeError name)
  | Some _ =>
      store r {| obj_node := obj_node o; obj_dict := delete name (obj_dict o) |}
  end.

(** [await _node.update()]: the object is refreshed in place. *)
Definition update (r : ref) : M unit :=
  o <- load r ;;
  fun w =>
    let o' := {| obj_node := on_update E (steps w) (obj_node o);
                 obj_dict := obj_dict o |} in
    (Return tt,
     tick (EvUpdate r)
       {| clock := clock w; steps := steps w; trace := trace w;
          heap := <[r := o']> (heap w) |}).

(** [await elem.update()] on a freshly created element. *)
Definition element_update (elem : Element) : M Element :=
  fun w =>
    (Return (on_element_update E (steps w) elem),
     tick (EvElementUpdate (node_id (node elem))) w).

(** *** query_selector_all, query_selector *)

(** The document a scoped query runs against:
    [doc = _node; if _node.node_name == "IFRAME": doc = _node.content_document]. *)
Definition scope_doc (o : NodeObj) : option Node :=
  if String.eqb (node_name (obj_node o)) "IFRAME"
  then content_document (obj_node o)
  else Some (obj_node o).

(** [if not _node: doc = get_document(-1, True) else: ...]. *)
Definition resolve_doc (_node : option ref) : M (option Node) :=
  match _node with
  | None => send GetDocument (on_get_document E)
  | Some r => o <- load r ;; ret (scope_doc o)
  end.

(** The [for nid in node_ids] loop of [query_selector_all]. *)
Fixpoint collect_results (doc : Node) (node_ids : list Z)
    (results : list Element) : M (list Element) :=
  match node_ids with
  | [] => ret results
  | nid :: rest =>
      match filter_recurse E (Some doc) (fun n => node_id n =? nid) with
      | None => collect_results doc rest results
      | Some nd =>
          match create E (Some nd) (Some doc) with
          | None => raise ElementCreateError
          | Some elem => collect_results doc rest (results ++ [elem])
          end
      end
  end.

(** [query_selector_all(selector, _node)].  The [except] branch either
    leaves the function ([inl]) or falls through with [node_ids] still
    empty ([inr]). *)
Fixpoint query_selector_all (fuel : nat) (selector : string)
    (_node : option ref) : M (list Element) :=
  match fuel with
  | O => out_of_fuel
  | S fuel' =>
      doc <- resolve_doc _node ;;
      match doc with
      | None => raise (AttributeError "node_id")
      | Some d =>
          attempt <-
            catch_protocol
              (node_ids <- send (QuerySelectorAll (node_id d) selector)
                             (fun n => on_query_selector_all E n (node_id d) selector) ;;
               ret (inr node_ids))
              (fun message =>
                 match _node with
                 | Some r =>
                     if contains "could not find node" (lower message) then
                       guard <- getattr r "__last" ;;
                       if truthy guard then
                         delattr r Tab__last ;;;
                         ret (inl [])
                       else
                         update r ;;;
                         setattr r Tab__last (PyBool true) ;;;
                         again <- query_selector_all fuel' selector _node ;;
                         ret (inl again)
                     else ret (inr [])
                 | None =>
                     send DomDisable (on_disable E) ;;;
                     raise (ProtocolException message)
                 end) ;;
          match attempt with
          | inl returned => ret returned
          | inr [] => ret []
          | inr node_ids => collect_results d node_ids []
          end
      end
  end.

(** The tail of [query_selector]: resolve the id against the document. *)
Definition resolve_single (doc : Node) (nid : Z) : M Item :=
  if nid =? 0 then ret ItemNone
  else
    match filter_recurse E (Some doc) (fun n => node_id n =? nid) with
    | None => ret ItemNone
    | Some nd =>
        match create E (Some nd) (Some doc) with
        | None => raise ElementCreateError
        | Some elem => ret (ItemElement elem)
        end
    end.

(** [query_selector(selector, _node)]; [node_id = None] before the [try]
    is the falsy id [0] here. *)
Fixpoint query_selector (fuel : nat) (selector : string)
    (_node : option ref) : M Item :=
  match fuel with
  | O => out_of_fuel
  | S fuel' =>
      doc <- resolve_doc _node ;;
      match doc with
      | None => raise (DriverException "Failed to find Document")
      | Some d =>
          attempt <-
            catch_protocol
              (nid <- send (QuerySelector (node_id d) selector)
                        (fun n => on_query_selector E n (node_id d) selector) ;;
               ret (inr nid))
              (fun message =>
                 match _node with
                 | Some r =>
                     if contains "could not find node" (lower message) then
                       guard <- getattr r "__last" ;;
                       if truthy guard then
                         delattr r Tab__last ;;;
                         ret (inl ItemEmptyList)
                       else
                         update r ;;;
                         setattr r Tab__last (PyBool true) ;;;
                         again <- query_selector fuel' selector _node ;;
                         ret (inl again)
                     else ret (inr 0)
                 | None =>
                     send DomDisable (on_disable E) ;;;
                     raise (ProtocolException message)
                 end) ;;
          match attempt with
          | inl returned => ret returned
          | inr nid => resolve_single d nid
          end
      end
  end.

(** *** select, select_all *)

(** The [while not item] loop of [select]; [now] is the clock value read on
    entry, [timeout] is in milliseconds. *)
Fixpoint select_loop (fuel : nat) (qfuel : nat) (selector : string)
    (timeout : Z) (_node : option ref) (now : Z) (item : Item) : M Item :=
  if item_truthy item then ret item
  else
    match fuel with
    | O => out_of_fuel
    | S fuel' =>
        await_tab ;;;
        item' <- query_selector qfuel selector _node ;;
        t <- loop_time ;;
        if timeout <? t - now then ret ItemNone
        else
          sleep 500 ;;;
          select_loop fuel' qfuel selector timeout _node now item'
    end.

Definition select (fuel : nat) (selector : string) (timeout : Z)
    (_node : option ref) : M Item :=
  now <- loop_time ;;
  item <- query_selector fuel selector _node ;;
  if negb (timeout =? 0) then
    select_loop fuel fuel selector timeout _node now item
  else ret item.

Definition results_truthy (results : list Element) : bool :=
  match results with
  | [] => false
  | _ => true
  end.

(** The [while not results] loop of [select_all].  [inl] is the [return
    results] inside the loop, [inr] is leaving the loop normally. *)
Fixpoint select_all_loop (fuel : nat) (qfuel : nat) (selector : string)
    (timeout : Z) (_node : option ref) (now : Z) (results : list Element)
    : M (list Element + list Element) :=
  if results_truthy results then ret (inr results)
  else
    match fuel with
    | O => out_of_fuel
    | S fuel' =>
        await_tab ;;;
        results' <- query_selector_all qfuel selector _node ;;
        t <- loop_time ;;
        if timeout <? t - now then ret (inl results')
        else
          sleep 500 ;;;
          select_all_loop fuel' qfuel selector timeout _node now results'
    end.

Definition select_all (fuel : nat) (selector : string) (timeout : Z)
    (node_name0 : option string) (_node : option ref) : M (list Element) :=
  now <- loop_time ;;
  results <- query_selector_all fuel selector _node ;;
  looped <-
    (if negb (timeout =? 0) then
       select_all_loop fuel fuel selector timeout _node now results
     else ret (inr results)) ;;
  match looped with
  | inl returned => ret returned
  | inr results =>
      if negb (results_truthy results) then ret []
      else
        match node_name0 with
        | Some name =>
            if str_truthy name then
              ret (List.filter (fun item =>
                     String.eqb (lower (node_name (node item))) (lower name))
                   results)
            else ret results
        | None => ret results
        end
  end.

(** *** Text search *)

(** [checktextnodeandappend(type, results, elem, text, exact_match)]; the
    grown list is returned. *)
Definition checktextnodeandappend (type : option string)
    (results : list Element) (elem : Element) (text0 : string)
    (exact_match : bool) : M (list Element) :=
  if elem_node_type elem =? 3 then
    elem <- (match parent elem with
             | None => element_update elem
             | Some _ => ret elem
             end) ;;
    let final := match parent elem with
                 | Some p => p
                 | None => elem
                 end in
    match type with
    | Some ty =>
        if str_truthy ty then
          if issametype (node final) ty
          then ret (append_safe results final text0 exact_match)
          else ret results
        else
          if negb (isbanned (node final))
          then ret (append_safe results final text0 exact_match)
          else ret results
    | None =>
        if negb (isbanned (node final))
        then ret (append_safe results final text0 exact_match)
        else ret results
    end
  else
    match type with
    | Some ty =>
        if str_truthy ty then
          if issametype (node elem) ty
          then ret (append_safe results elem text0 exact_match)
          else ret results
        else
          if negb (isbanned (node elem))
          then ret (append_safe results elem text0 exact_match)
          else ret results
    | None =>
        if negb (isbanned (node elem))
        then ret (append_safe results elem text0 exact_match)
        else ret results
    end.

(** The [for nid in node_ids] loop of [find_element_by_text].  [inl] is the
    [return results[0]] at the head of the loop body, [inr] is the list the
    loop ends with. *)
Fixpoint scan_hits (doc : option Node) (type : option string)
    (text0 : string) (exact_match : bool) (node_ids : list Z)
    (results : list Element) : M (Element + list Element) :=
  match node_ids with
  | [] => ret (inr results)
  | nid :: rest =>
      match results with
      | first :: _ => ret (inl first)
      | [] =>
          let nd := filter_recurse E doc (fun n => node_id n =? nid) in
          match create E nd doc with
          | None => scan_hits doc type text0 exact_match rest results
          | Some elem =>
              results' <- checktextnodeandappend type results elem text0 exact_match ;;
              scan_hits doc type text0 exact_match rest results'
          end
      end
  end.

(** [find_element_by_text(text, best_match, return_enclosing_element, type,
    exact_match)]. *)
Definition find_element_by_text (text0 : string) (best_match : bool)
    (return_enclosing_element : bool) (type : option string)
    (exact_match : bool) : M (option Element) :=
  doc <- send GetDocument (on_get_document E) ;;
  found <- send (PerformSearch text0) (fun n => on_perform_search E n text0) ;;
  let '(search_id, nresult) := found in
  node_ids <- send (GetSearchResults search_id 0 nresult)
                (fun n => on_get_search_results E n search_id 0 nresult) ;;
  send (DiscardSearchResults search_id)
    (fun n => on_discard_search_results E n search_id) ;;;
  scanned <- scan_hits doc type text0 exact_match node_ids [] ;;
  match scanned with
  | inl first => ret (Some first)
  | inr results =>
      finally
        (match results with
         | [] => ret None
         | elem :: _ => ret (Some elem)
         end)
        (send DomDisable (on_disable E))
  end.

Definition is_some {A} (o : option A) : bool :=
  match o with
  | Some _ => true
  | None => false
  end.

(** The [while not item] loop of [find]. *)
Fixpoint find_loop (fuel : nat) (text0 : string) (best_match : bool)
    (return_enclosing_element : bool) (timeout : Z) (type : option string)
    (exact_match : bool) (now : Z) (item : option Element)
    : M (option Element) :=
  if is_some item then ret item
  else
    match fuel with
    | O => out_of_fuel
    | S fuel' =>
        await_tab ;;;
        item' <- find_element_by_text text0 best_match
                   return_enclosing_element type exact_match ;;
        t <- loop_time ;;
        if timeout <? t - now then ret None
        else
          sleep 500 ;;;
          find_loop fuel' text0 best_match return_enclosing_element
            timeout type exact_match now item'
    end.

(** [find(text, best_match, return_enclosing_element, timeout, type,
    exact_match)]. *)
Definition find (fuel : nat) (text0 : string) (best_match : bool)
    (return_enclosing_element : bool) (timeout : Z) (type : option string)
    (exact_match : bool) : M (option Element) :=
  now <- loop_time ;;
  item <- find_element_by_text text0 best_match return_enclosing_element
            type exact_match ;;
  if negb (timeout =? 0) then
    find_loop fuel text0 best_match return_enclosing_element timeout type
      exact_match now item
  else ret item.

(** *** wait_for and the call alias *)

(** The [while not item] loop of [wait_for]. *)
Fixpoint wait_for_loop (fuel : nat) (qfuel : nat) (selector : string)
    (timeout : Z) (now : Z) (item : Item) : M Item :=
  if item_truthy item then ret item
  else
    match fuel with
    | O => out_of_fuel
    | S fuel' =>
        item' <- query_selector qfuel selector None ;;
        t <- loop_time ;;
        if timeout <? t - now
        then raise (ElementWithSelectorNotFoundException selector)
        else
          sleep 500 ;;;
          wait_for_loop fuel' qfuel selector timeout now item'
    end.

(** [wait_for(selector, text, timeout)]: only [selector] is looked at; a
    call that does not enter the [if] returns [None]. *)
Definition wait_for (fuel : nat) (selector : option string)
    (text0 : option string) (timeout : Z) : M Item :=
  now <- loop_time ;;
  match selector with
  | Some sel =>
      if str_truthy sel then
        item <- query_selector fuel sel None ;;
        wait_for_loop fuel fuel sel timeout now item
      else ret ItemNone
  | None => ret ItemNone
  end.

(** [__call__(text, selector, timeout)]: [return self.wait_for(text,
    selector, timeout)], the arguments passed by position. *)
Definition __call__ (fuel : nat) (text0 : option string)
    (selector : option string) (timeout : Z) : M Item :=
  wait_for fuel text0 selector timeout.

(** *** evaluate, js_dumps *)

(** [evaluate(expression, await_promise, return_by_value)]. *)
Definition evaluate (expression : string) (await_promise : bool)
    (return_by_value : bool) : M Evaluated :=
  let script := Envelope expression in
  response <- send (RuntimeEvaluate script await_promise return_by_value)
                (fun n => on_evaluate E n script) ;;
  match response with
  | None => raise JavascriptSyntaxException
  | Some (remote_object, errors) =>
      match errors with
      | Some details => raise (JavascriptException details)
      | None =>
          if return_by_value then
            if truthy (value remote_object) then
              match decode_x E remote_object with
              | inr x => ret (EvValue x)
              | inl failure => raise (decode_error failure)
              end
            else ret EvNothing
          else ret (EvObjects remote_object errors)
      end
  end.

(** Tuple unpacking of a reply: [remote_object, exception_details = ...]. *)
Definition unpack (response : option (RemoteObject * option ExceptionDetails))
    : M (RemoteObject * option ExceptionDetails) :=
  match response with
  | Some both => ret both
  | None => raise (TypeError "cannot unpack non-iterable NoneType object")
  end.

(** [js_dumps(obj_name, return_by_value)]. *)
Definition js_dumps (obj_name : string) (return_by_value : bool)
    : M Evaluated :=
  first <- (response <- send (RuntimeEvaluate (js_code_a obj_name) true return_by_value)
                          (fun n => on_evaluate E n (js_code_a obj_name)) ;;
            unpack response) ;;
  second <-
    (match snd first with
     | Some _ =>
         response <- send (RuntimeEvaluate (js_code_b obj_name) true return_by_value)
                       (fun n => on_evaluate E n (js_code_b obj_name)) ;;
         unpack response
     | None => ret first
     end) ;;
  let '(remote_object, exception_details) := second in
  match exception_details with
  | Some details => raise (JavascriptException details)
  | None =>
      if return_by_value then
        if truthy (value remote_object)
        then ret (EvValue (value remote_object))
        else ret EvNothing
      else ret (EvObjects remote_object exception_details)
  end.

End Model.

(* ===================================================================== *)
(** ** Reading aids for the statements *)
(* ===================================================================== *)

(** A reply that reports a stale node: a [ProtocolException] whose message,
    lower-cased, contains ["could not find node"]. *)
Definition node_not_found {A} (reply : Reply A) : Prop :=
  exists message,
    reply = Fail message /\ contains "could not find node" (lower message) = true.

(** The node object after [update()] at step [n] followed by the guard store
    [_node.__last = True]. *)
Definition refreshed (E : Env) (n : nat) (o : NodeObj) : NodeObj :=
  {| obj_node := on_update E n (obj_node o);
     obj_dict := <[Tab__last := PyBool true]> (obj_dict o) |}.

(** The value [getattr(_node, "__last", None)] reads. *)
Definition guard_of (o : NodeObj) : PyVal :=
  default PyNone (obj_dict o !! "__last").

(** What [query_selector_all] does with a reply that arrived. *)
Definition deliver_all (E : Env) (doc : Node) (node_ids : list Z) : M (list Element) :=
  match node_ids with
  | [] => ret []
  | _ => collect_results E doc node_ids []
  end.

(** The world after [sleep ms]. *)
Definition slept (E : Env) (ms : Z) (w : World) : World :=
  {| clock := clock (tick E (EvSleep ms) w) + ms;
     steps := S (steps w);
     trace := trace w ++ [EvSleep ms];
     heap := heap w |}.

(** A browser in which [selector] never matches: the document is there, the
    single-match query answers the null id and the multi-match query answers
    the empty list, at every step and for every scope. *)
Definition never_matches (E : Env) (selector : string) : Prop :=
  (forall n, exists d, on_get_document E n = Ok (Some d)) /\
  (forall n nid, on_query_selector E n nid selector = Ok 0) /\
  (forall n nid, on_query_selector_all E n nid selector = Ok []).

(** The effects of the polling rounds that follow the first lookup: each
    round awaits the tab, fetches the document and queries it; every round
    but the last is followed by a sleep of 500 ms. *)
Inductive poll_rounds (query : Z -> Command) : list Event -> Prop :=
| last_round d :
    poll_rounds query [EvAwaitTab; EvSend GetDocument; EvSend (query d)]
| next_round d rest :
    poll_rounds query rest ->
    poll_rounds query
      (EvAwaitTab :: EvSend GetDocument :: EvSend (query d) :: EvSleep 500 :: rest).

(** The world after a failed scoped query [q] at [w], the refresh of the
    node and the guard store: three awaited or local steps, of which the
    query and the refresh are recorded. *)
Definition after_refresh (E : Env) (r : ref) (o : NodeObj) (q : Command)
    (w : World) : World :=
  {| clock := clock w + Z.of_N (latency E (steps w))
                + Z.of_N (latency E (S (steps w)));
     steps := S (S (steps w));
     trace := (trace w ++ [EvSend q]) ++ [EvUpdate r];
     heap := <[r := refreshed E (S (steps w)) o]>
               (<[r := {| obj_node := on_update E (S (steps w)) (obj_node o);
                          obj_dict := obj_dict o |}]> (heap w)) |}.

(** The world after a failed scoped query [q] at [w] that hit the guard: the
    query is recorded and the mangled attribute is gone. *)
Definition after_guard (E : Env) (r : ref) (o : NodeObj) (q : Command)
    (w : World) : World :=
  {| clock := clock w + Z.of_N (latency E (steps w));
     steps := S (steps w);
     trace := trace w ++ [EvSend q];
     heap := <[r := {| obj_node := obj_node o;
                       obj_dict := delete Tab__last (obj_dict o) |}]> (heap w) |}.

(** The trace a [js_dumps] call leaves: the first script, and the second one
    exactly when the first reply carried exception details. *)
Definition dump_trace (obj_name : string) (return_by_value : bool)
    (first_exception : option ExceptionDetails) : list Event :=
  EvSend (RuntimeEvaluate (js_code_a obj_name) true return_by_value) ::
  match first_exception with
  | Some _ => [EvSend (RuntimeEvaluate (js_code_b obj_name) true return_by_value)]
  | None => []
  end.

(** What [find_element_by_text] answers from the outcome of its scan. *)
Definition answer_of (scanned : Element + list Element) : option Element :=
  match scanned with
  | inl first => Some first
  | inr kept => head kept
  end.

(** The glossary's best match, in the specification's words: among the
    candidates, the one whose text length is closest to the query length
    (the earliest one on a tie). *)
Definition length_distance (query : string) (elem : Element) : Z :=
  Z.abs (Z.of_nat (String.length (text elem)) - Z.of_nat (String.length query)).

Fixpoint spec_best_match (query : string) (candidates : list Element)
    : option Element :=
  match candidates with
  | [] => None
  | elem :: rest =>
      match spec_best_match query rest with
      | None => Some elem
      | Some other =>
          if length_distance query other <? length_distance query elem
          then Some other else Some elem
      end
  end.

(* ===================================================================== *)
(** ** A small page and scripted browsers for concrete runs *)
(* ===================================================================== *)

Module Bench.

Definition document : Node := mkNode 1 9 "#document" None.
Definition body : Node := mkNode 2 1 "BODY" None.
Definition span : Node := mkNode 3 1 "SPAN" None.
Definition span_text : Node := mkNode 4 3 "#text" None.
Definition button : Node := mkNode 5 1 "BUTTON" None.
Definition button_text : Node := mkNode 6 3 "#text" None.

Definition span_elem : Element :=
  mkElement span None "login to your account".
Definition span_text_elem : Element :=
  mkElement span_text (Some span_elem) "login to your account".
Definition button_elem : Element :=
  mkElement button None "login".
Definition button_text_elem : Element :=
  mkElement button_text (Some button_elem) "login".
Definition body_elem : Element := mkElement body None "".

Definition elements : list Element :=
  [body_elem; span_elem; span_text_elem; button_elem; button_text_elem].

Definition lookup_node (doc : option Node) (predicate : Node -> bool) : option Node :=
  List.find predicate (List.map node elements).

Definition make_element (nd tree : option Node) : option Element :=
  match nd with
  | None => None
  | Some n => List.find (fun e => node_id (node e) =? node_id n) elements
  end.

Definition stale_message : string := "Could not find node with given id".

(** A browser over the page above.  The scoped queries fail with the stale
    node message while the step count is below [stale_until] and answer
    [ids] / [id] afterwards; a text search for any string hits the two text
    nodes; [Runtime.evaluate] answers [evaluated]. *)
Definition browser (stale_until : nat) (ids : list Z) (id : Z)
    (evaluated : Script -> option (RemoteObject * option ExceptionDetails))
    : Env :=
  {| on_get_document := fun _ => Ok (Some document);
     on_query_selector := fun n _ _ =>
       if (n <? stale_until)%nat then Fail stale_message else Ok id;
     on_query_selector_all := fun n _ _ =>
       if (n <? stale_until)%nat then Fail stale_message else Ok ids;
     on_perform_search := fun _ _ => Ok ("search-1", 2);
     on_get_search_results := fun _ _ _ _ => Ok [4; 6];
     on_discard_search_results := fun _ _ => Ok tt;
     on_disable := fun _ => Ok tt;
     on_evaluate := fun _ script => Ok (evaluated script);
     on_update := fun _ n => n;
     on_element_update := fun _ e => e;
     latency := fun _ => 0%N;
     filter_recurse := lookup_node;
     create := make_element;
     decode_x := fun ro => inr (value ro) |}.

Definition no_script : Script -> option (RemoteObject * option ExceptionDetails) :=
  fun _ => None.

(** The page with nothing matching and no stale node. *)
Definition quiet : Env := browser 0 [] 0 no_script.

Definition w0 : World := mkWorld 0 0 [] ∅.

(** A world in which the caller holds the body element as reference 1. *)
Definition body_obj : NodeObj := mkNodeObj body ∅.
Definition w_scoped : World := mkWorld 0 0 [] {[ 1%positive := body_obj ]}.

(** The same, with both the attribute that [getattr] reads and the one that
    [del] removes present on the node. *)
Definition guarded_obj : NodeObj :=
  mkNodeObj body (<["__last" := PyBool true]> {[ Tab__last := PyBool true ]}).
Definition w_guarded : World := mkWorld 0 0 [] {[ 1%positive := guarded_obj ]}.

Definition thrown : ExceptionDetails := mkExceptionDetails 1 "Uncaught".
Definition other_thrown : ExceptionDetails := mkExceptionDetails 2 "Uncaught".
Definition dumped : RemoteObject := mkRemoteObject (PyStr "{}").

End Bench.

(* ===================================================================== *)
(** ** cdp/dom_storage.py: decoding and the commands *)
(* ===================================================================== *)

Module DomStorageWire.
Import DomStorage.

(** The result of a [from_json]: the decoded value, or the [KeyError] of a
    subscript on a missing key. *)
Inductive Parsed (A : Type) : Type :=
| Decoded (a : A)
| KeyError (key : string).

Arguments Decoded {A} a.
Arguments KeyError {A} key.

(** [str(v)] on the scalar values. *)
Definition py_str (v : PyVal) : string :=
  match v with
  | PyNone => "None"
  | PyBool true => "True"
  | PyBool false => "False"
  | PyInt z => pretty z
  | PyStr s => s
  end.

(** [str(json[key]) if json.get(key, None) is not None else None]. *)
Definition optional_str (json : gmap string PyVal) (key : string) : option string :=
  match json !! key with
  | None => None
  | Some PyNone => None
  | Some v => Some (py_str v)
  end.

(** [StorageId.from_json], on a dict whose values are JSON scalars. *)
Definition from_json (json : gmap string PyVal) : Parsed StorageId :=
  match json !! "isLocalStorage" with
  | None => KeyError "isLocalStorage"
  | Some local =>
      Decoded {| is_local_storage := truthy local;
                 security_origin := optional_str json "securityOrigin";
                 storage_key := optional_str json "storageKey" |}
  end.

(** [class Item(list)]: [to_json] returns the list, [from_json] builds one
    from the list it is given. *)
Definition Item := list string.

Definition Item_to_json (self : Item) : list string := self.

Definition Item_from_json (json : list string) : Item := json.

(** A value of a [params] dict: a scalar or the dict of a storage id. *)
Inductive Param : Type :=
| ParamScalar (v : PyVal)
| ParamObject (fields : gmap string PyVal).

(** [cmd_dict]: the method, and the params when the command has any. *)
Record Request : Type := mkRequest {
  method : string;
  params : option (gmap string Param);
}.

Definition clear (storage_id : StorageId) : Request :=
  let params : gmap string Param := ∅ in
  let params := <["storageId" := ParamObject (to_json storage_id)]> params in
  {| method := "DOMStorage.clear"; params := Some params |}.

Definition disable : Request :=
  {| method := "DOMStorage.disable"; params := None |}.

Definition enable : Request :=
  {| method := "DOMStorage.enable"; params := None |}.

Definition get_dom_storage_items (storage_id : StorageId) : Request :=
  let params : gmap string Param := ∅ in
  let params := <["storageId" := ParamObject (to_json storage_id)]> params in
  {| method := "DOMStorage.getDOMStorageItems"; params := Some params |}.

(** The second phase of [get_dom_storage_items]:
    [[Item.from_json(i) for i in json["entries"]]]. *)
Definition get_dom_storage_items_result (json : gmap string (list (list string)))
    : Parsed (list Item) :=
  match json !! "entries" with
  | None => KeyError "entries"
  | Some entries => Decoded (List.map Item_from_json entries)
  end.

Definition remove_dom_storage_item (storage_id : StorageId) (key : string)
    : Request :=
  let params : gmap string Param := ∅ in
  let params := <["storageId" := ParamObject (to_json storage_id)]> params in
  let params := <["key" := ParamScalar (PyStr key)]> params in
  {| method := "DOMStorage.removeDOMStorageItem"; params := Some params |}.

Definition set_dom_storage_item (storage_id : StorageId) (key value0 : string)
    : Request :=
  let params : gmap string Param := ∅ in
  let params := <["storageId" := ParamObject (to_json storage_id)]> params in
  let params := <["key" := ParamScalar (PyStr key)]> params in
  let params := <["value" := ParamScalar (PyStr value0)]> params in
  {| method := "DOMStorage.setDOMStorageItem"; params := Some params |}.

(** The storage id a request carries, decoded the way the receiving side
    would decode it. *)
Definition carried_storage_id (request : Request) : option (Parsed StorageId) :=
  match params request with
  | None => None
  | Some fields =>
      match fields !! "storageId" with
      | Some (ParamObject json) => Some (from_json json)
      | _ => None
      end
  end.

End DomStorageWire.

(* ===================================================================== *)
(** ** core/tab.py: find_elements_by_text, find_all *)
(* ===================================================================== *)

(** [DOM.resolveNode] is sent by [find_elements_by_text] only.  Its exchanges
    are logged beside the trace: the step at which the command was sent and
    the node id it asked for. *)
Definition ResolveLog := list (nat * Z).

(** The collaborators of that exchange: the browser's reply, and
    [element.create] applied to the remote object of the reply ([None] when
    it raises). *)
Record ResolveEnv : Type := mkResolveEnv {
  on_resolve_node : nat -> Z -> Reply (option RemoteObject);
  create_resolved : RemoteObject -> option Node -> option Element;
}.

Section TextSearchAll.

Variable E : Env.
Variable R : ResolveEnv.

(** [await self.send(cdp.dom.resolve_node(node_id=nid))]. *)
Definition send_resolve_node (nid : Z) (log : ResolveLog)
    : M (option RemoteObject * ResolveLog) :=
  fun w =>
    let w' := {| clock := clock w + Z.of_N (latency E (steps w));
                 steps := S (steps w);
                 trace := trace w;
                 heap := heap w |} in
    let log' := log ++ [(steps w, nid)] in
    match on_resolve_node R (steps w) nid with
    | Ok resolved => (Return (resolved, log'), w')
    | Fail message => (Raise (ProtocolException message), w')
    end.

(** The [for nid in node_ids] loop of [find_elements_by_text]. *)
Fixpoint gather_hits (doc : option Node) (type : option string)
    (text0 : string) (exact_match : bool) (node_ids : list Z)
    (results : list Element) (log : ResolveLog)
    : M (list Element * ResolveLog) :=
  match node_ids with
  | [] => ret (results, log)
  | nid :: rest =>
      match filter_recurse E doc (fun n => node_id n =? nid) with
      | Some nd =>
          match create E (Some nd) doc with
          | None => gather_hits doc type text0 exact_match rest results log
          | Some elem =>
              results' <- checktextnodeandappend E type results elem text0 exact_match ;;
              gather_hits doc type text0 exact_match rest results' log
          end
      | None =>
          resolved <- send_resolve_node nid log ;;
          let '(remote, log') := resolved in
          match remote with
          | None => gather_hits doc type text0 exact_match rest results log'
          | Some remote_object =>
              match create_resolved R remote_object doc with
              | None => gather_hits doc type text0 exact_match rest results log'
              | Some elem =>
                  results' <- checktextnodeandappend E type results elem text0 exact_match ;;
                  gather_hits doc type text0 exact_match rest results' log'
              end
          end
      end
  end.

(** [find_elements_by_text(text, tag_hint, type, exact_match)]. *)
Definition find_elements_by_text (text0 : string) (tag_hint : option string)
    (type : option string) (exact_match : bool) (log : ResolveLog)
    : M (list Element * ResolveLog) :=
  doc <- send E GetDocument (on_get_document E) ;;
  found <- send E (PerformSearch text0) (fun n => on_perform_search E n text0) ;;
  let '(search_id, nresult) := found in
  node_ids <-
    (if negb (nresult =? 0) then
       send E (GetSearchResults search_id 0 nresult)
         (fun n => on_get_search_results E n search_id 0 nresult)
     else ret []) ;;
  send E (DiscardSearchResults search_id)
    (fun n => on_discard_search_results E n search_id) ;;;
  gathered <- gather_hits doc type text0 exact_match node_ids [] log ;;
  send E DomDisable (on_disable E) ;;;
  ret gathered.

(** The [while not results] loop of [find_all].  [inl] is the [return []]
    inside the loop, [inr] is leaving the loop normally. *)
Fixpoint find_all_loop (fuel : nat) (text0 : string) (timeout : Z)
    (type : option string) (exact_match : bool) (now : Z)
    (results : list Element) (log : ResolveLog)
    : M ((list Element + list Element) * ResolveLog) :=
  if results_truthy results then ret (inr results, log)
  else
    match fuel with
    | O => out_of_fuel
    | S fuel' =>
        await_tab E ;;;
        again <- find_elements_by_text text0 None type exact_match log ;;
        let '(results', log') := again in
        t <- loop_time ;;
        if timeout <? t - now then ret (inl [], log')
        else
          sleep E 500 ;;;
          find_all_loop fuel' text0 timeout type exact_match now results' log'
    end.

(** [find_all(text, timeout, type, exact_match)]. *)
Definition find_all (fuel : nat) (text0 : string) (timeout : Z)
    (type : option string) (exact_match : bool) (log : ResolveLog)
    : M (list Element * ResolveLog) :=
  now <- loop_time ;;
  first <- find_elements_by_text text0 None type exact_match log ;;
  let '(results, log1) := first in
  looped <-
    (if negb (timeout =? 0) then
       find_all_loop fuel text0 timeout type exact_match now results log1
     else ret (inr results, log1)) ;;
  let '(ended, log2) := looped in
  match ended with
  | inl returned => ret (returned, log2)
  | inr results => ret (results, log2)
  end.

End TextSearchAll.

(* ===================================================================== *)
(** ** Further reading aids and scripted browsers *)
(* ===================================================================== *)

(** The element a node id of a reply stands for in a document, when the id
    resolves there and the element can be created. *)
Definition element_of (E : Env) (doc : Node) (nid : Z) : option Element :=
  match filter_recurse E (Some doc) (fun n => node_id n =? nid) with
  | None => None
  | Some nd => create E (Some nd) (Some doc)
  end.

(** What the text search requires of an element it returns: the tag filter
    when one is given, else a tag outside the banned set; and the query as
    its text when an exact match is asked for. *)
Definition passes_filters (type : option string) (query : string)
    (exact_match : bool) (elem : Element) : Prop :=
  (if opt_str_truthy type
   then issametype (node elem) (default "" type) = true
   else isbanned (node elem) = false) /\
  (exact_match = true -> text elem = query).

(** A browser in which a text search never hits: the document is there, the
    search reports no result, and the bookkeeping commands succeed. *)
Definition text_never_found (E : Env) (query : string) : Prop :=
  (forall n, exists d, on_get_document E n = Ok d) /\
  (forall n, exists search_id, on_perform_search E n query = Ok (search_id, 0)) /\
  (forall n search_id from_index to_index,
     on_get_search_results E n search_id from_index to_index = Ok []) /\
  (forall n search_id, on_discard_search_results E n search_id = Ok tt) /\
  (forall n, on_disable E n = Ok tt).

(** Whether a hit of the search is missing from the document snapshot. *)
Definition missing_from (E : Env) (doc : option Node) (nid : Z) : bool :=
  negb (is_some (filter_recurse E doc (fun n => node_id n =? nid))).

(** The number of refreshes in a trace. *)
Fixpoint count_updates (events : list Event) : nat :=
  match events with
  | [] => 0%nat
  | EvUpdate _ :: rest => S (count_updates rest)
  | _ :: rest => count_updates rest
  end.

Module Script.

(** A browser over the bench page, scripted per step: the replies to the
    document fetch, to the two queries and to [DOM.disable], the hits of a
    text search, and the time every awaited operation takes. *)
Definition browser (documents : nat -> Reply (option Node))
    (single : nat -> Reply Z) (multi : nat -> Reply (list Z))
    (hits : list Z) (disabled : nat -> Reply unit) (delay : N) : Env :=
  {| on_get_document := documents;
     on_query_selector := fun n _ _ => single n;
     on_query_selector_all := fun n _ _ => multi n;
     on_perform_search := fun _ _ => Ok ("search-1", Z.of_nat (length hits));
     on_get_search_results := fun _ _ _ _ => Ok hits;
     on_discard_search_results := fun _ _ => Ok tt;
     on_disable := disabled;
     on_evaluate := fun _ _ => Ok None;
     on_update := fun _ n => n;
     on_element_update := fun _ e => e;
     latency := fun _ => delay;
     filter_recurse := Bench.lookup_node;
     create := Bench.make_element;
     decode_x := fun ro => inr (value ro) |}.

Definition page : nat -> Reply (option Node) := fun _ => Ok (Some Bench.document).

Definition enabled : nat -> Reply unit := fun _ => Ok tt.

(** Every query fails with [message]. *)
Definition failing (message : string) (disabled : nat -> Reply unit) : Env :=
  browser page (fun _ => Fail message) (fun _ => Fail message) [] disabled 0.

(** No document is fetched. *)
Definition blank : Env :=
  browser (fun _ => Ok None) (fun _ => Ok 0) (fun _ => Ok []) [] enabled 0.

(** The button appears at step 4, and every awaited operation takes 300 ms. *)
Definition late : Env :=
  browser page
    (fun n => if (n <? 4)%nat then Ok 0 else Ok 5)
    (fun n => if (n <? 4)%nat then Ok [] else Ok [5])
    [] enabled 300.

(** A search that hits the given node ids. *)
Definition searching (hits : list Z) : Env :=
  browser page (fun _ => Ok 0) (fun _ => Ok []) hits enabled 0.

(** [Runtime.evaluate] is answered with [reply], and decoding the returned
    value gives [decoded]. *)
Definition evaluating (reply : Reply (option (RemoteObject * option ExceptionDetails)))
    (decoded : DecodeFailure + PyVal) : Env :=
  {| on_get_document := page;
     on_query_selector := fun _ _ _ => Ok 0;
     on_query_selector_all := fun _ _ _ => Ok [];
     on_perform_search := fun _ _ => Ok ("search-1", 0);
     on_get_search_results := fun _ _ _ _ => Ok [];
     on_discard_search_results := fun _ _ => Ok tt;
     on_disable := enabled;
     on_evaluate := fun _ _ => reply;
     on_update := fun _ n => n;
     on_element_update := fun _ e => e;
     latency := fun _ => 0%N;
     filter_recurse := Bench.lookup_node;
     create := Bench.make_element;
     decode_x := fun _ => decoded |}.

(** A returned value that is text but not JSON. *)
Definition not_json : RemoteObject := mkRemoteObject (PyStr "undefined").

(** A scope that is an iframe without content document. *)
Definition empty_frame : NodeObj := mkNodeObj (mkNode 7 1 "IFRAME" None) ∅.
Definition w_frame : World := mkWorld 0 0 [] {[ 1%positive := empty_frame ]}.

(** [DOM.resolveNode] answers nothing. *)
Definition unresolved : ResolveEnv :=
  {| on_resolve_node := fun _ _ => Ok None;
     create_resolved := fun _ _ => None |}.

End Script.

(* ===================================================================== *)
(** ** Properties of [append_safe] and [StorageId.to_json] *)
(* ===================================================================== *)

Lemma app_singleton_neq {A} (l : list A) (x : A) : l ++ [x] <> l.
Proof.
  intros H. apply (f_equal (@List.length A)) in H.
  rewrite List.length_app in H. simpl in H. lia.
Qed.

(** C6.  With [exact_match] set, [append_safe] keeps the candidate exactly
    when the query equals the candidate's text; with [exact_match] unset it
    keeps every candidate.  Nothing else is ever done to the result list. *)
Theorem append_safe_exact_match (results : list Element) (elem : Element)
    (query : string) (exact_match : bool) :
  (append_safe results elem query exact_match = results ++ [elem]
     <-> (exact_match = false \/ query = text elem)) /\
  (append_safe results elem query exact_match = results
     <-> (exact_match = true /\ query <> text elem)).
Proof.
  unfold append_safe.
  destruct exact_match; [destruct (String.eqb_spec query (text elem)) as [Heq|Hne]|].
  - split; split; intros H; auto.
    + exfalso. exact (app_singleton_neq _ _ H).
    + destruct H as [_ H]. contradiction.
  - split; split; intros H; auto.
    + exfalso. symmetry in H. exact (app_singleton_neq _ _ H).
    + destruct H as [H|H]; [discriminate | contradiction].
  - split; split; intros H; auto.
    + exfalso. exact (app_singleton_neq _ _ H).
    + destruct H as [H _]. discriminate.
Qed.

(** A candidate whose text contains the query as a proper substring is in the
    result exactly when [exact_match] is unset. *)
Corollary append_safe_proper_substring (elem : Element) (query : string)
    (exact_match : bool) :
  contains query (text elem) = true ->
  query <> text elem ->
  (append_safe [] elem query exact_match = [elem] <-> exact_match = false).
Proof.
  intros _ Hne. unfold append_safe.
  destruct exact_match; [|split; reflexivity].
  destruct (String.eqb_spec query (text elem)) as [Heq|_]; [contradiction|].
  split; intros H; discriminate H.
Qed.

Module DomStorageFacts.
Import DomStorage.

(** C9.  The params object of a [StorageId] always has ["isLocalStorage"],
    has ["securityOrigin"] exactly when [security_origin] is set, has
    ["storageKey"] exactly when [storage_key] is set, has no other key, and
    no key is bound to [None]. *)
Theorem to_json_optional_fields (self : StorageId) :
  to_json self !! "isLocalStorage" = Some (PyBool (is_local_storage self)) /\
  to_json self !! "securityOrigin" = PyStr <$> security_origin self /\
  to_json self !! "storageKey" = PyStr <$> storage_key self /\
  (forall key, is_Some (to_json self !! key) ->
     key = "isLocalStorage" \/ key = "securityOrigin" \/ key = "storageKey") /\
  (forall key, to_json self !! key <> Some PyNone).
Proof.
  destruct self as [local [origin|] [key|]]; unfold to_json; simpl;
    (split; [by simplify_map_eq|]);
    (split; [by simplify_map_eq|]);
    (split; [by simplify_map_eq|]);
    split; intros k.
  all: try (intros [v Hv];
    repeat (apply lookup_insert_Some in Hv as [[<- _]|[_ Hv]]; [by auto|]);
    by rewrite lookup_empty in Hv).
  all: intros Hv;
    repeat (apply lookup_insert_Some in Hv as [[_ ?]|[_ Hv]]; [done|]);
    by rewrite lookup_empty in Hv.
Qed.

End DomStorageFacts.

(* ===================================================================== *)
(** ** wait_for without a selector, and the call alias *)
(* ===================================================================== *)

Section Alias.

Variable E : Env.

(** C2, at the failing input.  A [wait_for] call that carries only [text]
    (the selector left at its default, the empty string, or [None]) performs
    no lookup at all and returns [None] at once: the world is unchanged and
    nothing is raised, whatever the text and the timeout. *)
Theorem wait_for_text_only_returns_none (fuel : nat) (query : option string)
    (timeout : Z) (w : World) :
  wait_for E fuel (Some "") query timeout w = (Return ItemNone, w) /\
  wait_for E fuel None query timeout w = (Return ItemNone, w).
Proof. split; reflexivity. Qed.

(** C10.  [__call__(text, selector, timeout)] is [wait_for] with [text] in
    the selector position and [selector] in the text position; called with
    only [selector] set, it performs no lookup and returns [None] at once. *)
Theorem call_alias_swaps_arguments (fuel : nat) (text0 selector : option string)
    (timeout : Z) (w : World) :
  __call__ E fuel text0 selector timeout w = wait_for E fuel text0 selector timeout w /\
  __call__ E fuel (Some "") selector timeout w = (Return ItemNone, w) /\
  __call__ E fuel None selector timeout w = (Return ItemNone, w).
Proof. repeat split; reflexivity. Qed.

End Alias.

(** With [text] set, the alias hands the text to [wait_for] as a css
    selector: on the bench page it is queried as one, and the error that ends
    the wait names it as the selector. *)
Example call_alias_queries_text_as_selector :
  let run := __call__ Bench.quiet 2 (Some "Sign in") (Some "") 0 Bench.w0 in
  fst run = Raise (ElementWithSelectorNotFoundException "Sign in") /\
  trace (snd run) =
    [EvSend GetDocument; EvSend (QuerySelector 1 "Sign in");
     EvSend GetDocument; EvSend (QuerySelector 1 "Sign in"); EvSleep 500;
     EvSend GetDocument; EvSend (QuerySelector 1 "Sign in")].
Proof. split; vm_compute; reflexivity. Qed.

(* ===================================================================== *)
(** ** Running the monad *)
(* ===================================================================== *)

Lemma bind_return {A B} (c : M A) (k : A -> M B) (w w' : World) (a : A) :
  c w = (Return a, w') -> bind c k w = k a w'.
Proof. intros H. unfold bind. now rewrite H. Qed.

Lemma bind_raise {A B} (c : M A) (k : A -> M B) (w w' : World) (e : Exn) :
  c w = (Raise e, w') -> bind c k w = (Raise e, w').
Proof. intros H. unfold bind. now rewrite H. Qed.

Section Running.

Variable E : Env.

Lemma clock_tick (ev : Event) (w : World) : clock w <= clock (tick E ev w).
Proof. unfold tick; simpl. lia. Qed.

Lemma send_ok {A} (c : Command) (reply : nat -> Reply A) (w : World) (a : A) :
  reply (steps w) = Ok a -> send E c reply w = (Return a, tick E (EvSend c) w).
Proof. intros H. unfold send. now rewrite H. Qed.

Lemma send_fail {A} (c : Command) (reply : nat -> Reply A) (w : World)
    (message : string) :
  reply (steps w) = Fail message ->
  send E c reply w = (Raise (ProtocolException message), tick E (EvSend c) w).
Proof. intros H. unfold send. now rewrite H. Qed.

Lemma await_tab_run (w : World) :
  await_tab E w = (Return tt, tick E EvAwaitTab w).
Proof. reflexivity. Qed.

Lemma loop_time_run (w : World) : loop_time w = (Return (clock w), w).
Proof. reflexivity. Qed.

Lemma sleep_run (ms : Z) (w : World) : sleep E ms w = (Return tt, slept E ms w).
Proof. reflexivity. Qed.

(** The result list is assembled without touching the world. *)
Lemma collect_results_pure (doc : Node) (node_ids : list Z) :
  forall results w, snd (collect_results E doc node_ids results w) = w.
Proof.
  induction node_ids as [|nid rest IH]; intros results w; simpl.
  - reflexivity.
  - destruct (filter_recurse E (Some doc) _); [|apply IH].
    destruct (create E _ _); [apply IH | reflexivity].
Qed.

(** An unscoped lookup of a selector that never matches: two commands, the
    answer [None]. *)
Lemma query_selector_no_match (selector : string) (fuel : nat) (w : World) :
  never_matches E selector ->
  exists d,
    query_selector E (S fuel) selector None w =
    (Return ItemNone,
     tick E (EvSend (QuerySelector d selector)) (tick E (EvSend GetDocument) w)).
Proof.
  intros (Hdoc & Hone & _).
  destruct (Hdoc (steps w)) as [d Hd]. exists (node_id d).
  simpl. unfold resolve_doc.
  rewrite (bind_return _ _ _ _ _ (send_ok _ _ _ _ Hd)).
  erewrite bind_return; cycle 1.
  { unfold catch_protocol. erewrite bind_return; cycle 1.
    { apply send_ok. apply Hone. }
    reflexivity. }
  reflexivity.
Qed.

Lemma query_selector_all_no_match (selector : string) (fuel : nat) (w : World) :
  never_matches E selector ->
  exists d,
    query_selector_all E (S fuel) selector None w =
    (Return [],
     tick E (EvSend (QuerySelectorAll d selector)) (tick E (EvSend GetDocument) w)).
Proof.
  intros (Hdoc & _ & Hall).
  destruct (Hdoc (steps w)) as [d Hd]. exists (node_id d).
  simpl. unfold resolve_doc.
  rewrite (bind_return _ _ _ _ _ (send_ok _ _ _ _ Hd)).
  erewrite bind_return; cycle 1.
  { unfold catch_protocol. erewrite bind_return; cycle 1.
    { apply send_ok. apply Hall. }
    reflexivity. }
  reflexivity.
Qed.

End Running.

(* ===================================================================== *)
(** ** Polling a selector that never matches *)
(* ===================================================================== *)

Section Polling.

Variable E : Env.
Variable selector : string.
Variable timeout : Z.
Hypothesis quiet_page : never_matches E selector.

(** One more round decides within the fuel as soon as the remaining time is
    below 500 ms per round left. *)
Lemma select_loop_gives_up (now : Z) (qfuel : nat) :
  forall fuel w,
    timeout - (clock w - now) < 500 * Z.of_nat fuel ->
    exists w' rounds,
      select_loop E (S fuel) (S qfuel) selector timeout None now ItemNone w =
        (Return ItemNone, w') /\
      trace w' = trace w ++ rounds /\
      poll_rounds (fun d => QuerySelector d selector) rounds /\
      timeout < clock w' - now.
Proof.
  induction fuel as [|fuel IH]; intros w Hleft.
  all: destruct (query_selector_no_match E selector qfuel
                   (tick E EvAwaitTab w) quiet_page) as [d Hq].
  all: cbn [select_loop item_truthy].
  all: rewrite (bind_return _ _ _ _ _ (await_tab_run E w)).
  all: rewrite (bind_return _ _ _ _ _ Hq).
  all: rewrite (bind_return _ _ _ _ _ (loop_time_run _)).
  all: set (w2 := tick E (EvSend (QuerySelector d selector)) _) in *.
  all: assert (Hclock : clock w <= clock w2)
         by (unfold w2, tick; simpl; lia).
  all: assert (Htrace : trace w2 = trace w ++
         [EvAwaitTab; EvSend GetDocument; EvSend (QuerySelector d selector)])
         by (unfold w2, tick; simpl; now rewrite <- !app_assoc).
  all: destruct (Z.ltb_spec timeout (clock w2 - now)) as [Hout|Hin].
  - exists w2, [EvAwaitTab; EvSend GetDocument; EvSend (QuerySelector d selector)].
    repeat split; auto. apply (last_round (fun d => QuerySelector d selector)).
  - lia.
  - exists w2, [EvAwaitTab; EvSend GetDocument; EvSend (QuerySelector d selector)].
    repeat split; auto. apply (last_round (fun d => QuerySelector d selector)).
  - rewrite (bind_return _ _ _ _ _ (sleep_run E 500 w2)).
    destruct (IH (slept E 500 w2)) as (w' & rounds & Hrun & Htr & Hrounds & Hlate).
    { unfold slept, tick; simpl. lia. }
    exists w',
      (EvAwaitTab :: EvSend GetDocument :: EvSend (QuerySelector d selector)
         :: EvSleep 500 :: rounds).
    repeat split; auto.
    + rewrite Htr. unfold slept. cbn [trace]. rewrite Htrace.
      now rewrite <- !app_assoc.
    + now apply (next_round (fun d => QuerySelector d selector)).
Qed.

Lemma select_all_loop_gives_up (now : Z) (qfuel : nat) :
  forall fuel w,
    timeout - (clock w - now) < 500 * Z.of_nat fuel ->
    exists w' rounds,
      select_all_loop E (S fuel) (S qfuel) selector timeout None now [] w =
        (Return (inl []), w') /\
      trace w' = trace w ++ rounds /\
      poll_rounds (fun d => QuerySelectorAll d selector) rounds /\
      timeout < clock w' - now.
Proof.
  induction fuel as [|fuel IH]; intros w Hleft.
  all: destruct (query_selector_all_no_match E selector qfuel
                   (tick E EvAwaitTab w) quiet_page) as [d Hq].
  all: cbn [select_all_loop results_truthy].
  all: rewrite (bind_return _ _ _ _ _ (await_tab_run E w)).
  all: rewrite (bind_return _ _ _ _ _ Hq).
  all: rewrite (bind_return _ _ _ _ _ (loop_time_run _)).
  all: set (w2 := tick E (EvSend (QuerySelectorAll d selector)) _) in *.
  all: assert (Hclock : clock w <= clock w2)
         by (unfold w2, tick; simpl; lia).
  all: assert (Htrace : trace w2 = trace w ++
         [EvAwaitTab; EvSend GetDocument; EvSend (QuerySelectorAll d selector)])
         by (unfold w2, tick; simpl; now rewrite <- !app_assoc).
  all: destruct (Z.ltb_spec timeout (clock w2 - now)) as [Hout|Hin].
  - exists w2, [EvAwaitTab; EvSend GetDocument; EvSend (QuerySelectorAll d selector)].
    repeat split; auto. apply (last_round (fun d => QuerySelectorAll d selector)).
  - lia.
  - exists w2, [EvAwaitTab; EvSend GetDocument; EvSend (QuerySelectorAll d selector)].
    repeat split; auto. apply (last_round (fun d => QuerySelectorAll d selector)).
  - rewrite (bind_return _ _ _ _ _ (sleep_run E 500 w2)).
    destruct (IH (slept E 500 w2)) as (w' & rounds & Hrun & Htr & Hrounds & Hlate).
    { unfold slept, tick; simpl. lia. }
    exists w',
      (EvAwaitTab :: EvSend GetDocument :: EvSend (QuerySelectorAll d selector)
         :: EvSleep 500 :: rounds).
    repeat split; auto.
    + rewrite Htr. unfold slept. cbn [trace]. rewrite Htrace.
      now rewrite <- !app_assoc.
    + now apply (next_round (fun d => QuerySelectorAll d selector)).
Qed.

(** [wait_for]'s loop ends in the typed error, after the deadline; when the
    protocol calls take no time, at most one retry interval after it. *)
Lemma wait_for_loop_raises (now : Z) (qfuel : nat) :
  forall fuel w,
    timeout - (clock w - now) < 500 * Z.of_nat fuel ->
    exists w',
      wait_for_loop E (S fuel) (S qfuel) selector timeout now ItemNone w =
        (Raise (ElementWithSelectorNotFoundException selector), w') /\
      timeout < clock w' - now /\
      ((forall n, latency E n = 0%N) ->
       clock w - now <= timeout + 500 ->
       clock w' - now <= timeout + 500).
Proof.
  induction fuel as [|fuel IH]; intros w Hleft.
  all: destruct (query_selector_no_match E selector qfuel w quiet_page) as [d Hq].
  all: cbn [wait_for_loop item_truthy].
  all: rewrite (bind_return _ _ _ _ _ Hq).
  all: rewrite (bind_return _ _ _ _ _ (loop_time_run _)).
  all: set (w2 := tick E (EvSend (QuerySelector d selector)) _) in *.
  all: assert (Hclock : clock w <= clock w2)
         by (unfold w2, tick; simpl; lia).
  all: assert (Hzero : (forall n, latency E n = 0%N) -> clock w2 = clock w)
         by (intros Hz; unfold w2, tick; simpl; rewrite !Hz; simpl; lia).
  all: destruct (Z.ltb_spec timeout (clock w2 - now)) as [Hout|Hin].
  - exists w2. repeat split; auto. intros Hz Hw. rewrite (Hzero Hz). exact Hw.
  - lia.
  - exists w2. repeat split; auto. intros Hz Hw. rewrite (Hzero Hz). exact Hw.
  - rewrite (bind_return _ _ _ _ _ (sleep_run E 500 w2)).
    destruct (IH (slept E 500 w2)) as (w' & Hrun & Hlate & Hsoon).
    { unfold slept, tick; simpl. lia. }
    exists w'. repeat split; auto.
    intros Hz Hw. apply Hsoon; [exact Hz|].
    unfold slept. cbn [clock]. unfold tick at 1. cbn [clock].
    rewrite Hz. change (Z.of_N 0) with 0. lia.
Qed.

End Polling.

(** C4.  For a selector that never matches and a positive timeout, [select]
    looks the selector up once, then polls in rounds that are 500 ms of sleep
    apart until the deadline has passed, and returns [None]; [select_all]
    does the same and returns the empty list, whatever the tag filter.
    Neither raises, and neither stops before the deadline.  ([fuel] bounds
    the number of rounds: one per 500 ms of timeout is enough.) *)
Theorem select_and_select_all_give_up_quietly (E : Env) (selector : string)
    (timeout : Z) (fuel : nat) (w : World) :
  never_matches E selector ->
  0 < timeout ->
  timeout < 500 * Z.of_nat fuel ->
  (exists w' d rounds,
     select E (S fuel) selector timeout None w = (Return ItemNone, w') /\
     trace w' =
       trace w ++ EvSend GetDocument :: EvSend (QuerySelector d selector) :: rounds /\
     poll_rounds (fun d => QuerySelector d selector) rounds /\
     timeout < clock w' - clock w) /\
  (forall node_name0, exists w' d rounds,
     select_all E (S fuel) selector timeout node_name0 None w = (Return [], w') /\
     trace w' =
       trace w ++ EvSend GetDocument :: EvSend (QuerySelectorAll d selector) :: rounds /\
     poll_rounds (fun d => QuerySelectorAll d selector) rounds /\
     timeout < clock w' - clock w).
Proof.
  intros Hquiet Hpos Hfuel.
  assert (Htruthy : negb (timeout =? 0) = true).
  { destruct (Z.eqb_spec timeout 0); [lia | reflexivity]. }
  split; [|intros node_name0].
  - destruct (query_selector_no_match E selector fuel w Hquiet) as [d Hq].
    set (w1 := tick E (EvSend (QuerySelector d selector)) (tick E (EvSend GetDocument) w)) in *.
    destruct (select_loop_gives_up E selector timeout Hquiet (clock w) fuel fuel w1)
      as (w' & rounds & Hrun & Htr & Hrounds & Hlate).
    { unfold w1, tick; simpl. lia. }
    exists w', d, rounds. repeat split; auto.
    + unfold select.
      rewrite (bind_return _ _ _ _ _ (loop_time_run w)).
      rewrite (bind_return _ _ _ _ _ Hq).
      rewrite Htruthy. exact Hrun.
    + rewrite Htr. unfold w1, tick. cbn [trace]. now rewrite <- !app_assoc.
  - destruct (query_selector_all_no_match E selector fuel w Hquiet) as [d Hq].
    set (w1 := tick E (EvSend (QuerySelectorAll d selector)) (tick E (EvSend GetDocument) w)) in *.
    destruct (select_all_loop_gives_up E selector timeout Hquiet (clock w) fuel fuel w1)
      as (w' & rounds & Hrun & Htr & Hrounds & Hlate).
    { unfold w1, tick; simpl. lia. }
    exists w', d, rounds. repeat split; auto.
    + unfold select_all.
      rewrite (bind_return _ _ _ _ _ (loop_time_run w)).
      rewrite (bind_return _ _ _ _ _ Hq).
      rewrite Htruthy.
      rewrite (bind_return _ _ _ _ _ Hrun). reflexivity.
    + rewrite Htr. unfold w1, tick. cbn [trace]. now rewrite <- !app_assoc.
Qed.

Lemma quiet_never_matches (selector : string) : never_matches Bench.quiet selector.
Proof.
  split; [|split].
  - intros n. exists Bench.document. reflexivity.
  - intros n nid. reflexivity.
  - intros n nid. reflexivity.
Defined.

Lemma select_and_select_all_give_up_quietly_witness :
  (exists w' d rounds,
     select Bench.quiet 4 "a.missing" 1000 None Bench.w0 = (Return ItemNone, w') /\
     trace w' =
       trace Bench.w0 ++
       EvSend GetDocument :: EvSend (QuerySelector d "a.missing") :: rounds /\
     poll_rounds (fun d => QuerySelector d "a.missing") rounds /\
     1000 < clock w' - clock Bench.w0) /\
  (forall node_name0, exists w' d rounds,
     select_all Bench.quiet 4 "a.missing" 1000 node_name0 None Bench.w0 = (Return [], w') /\
     trace w' =
       trace Bench.w0 ++
       EvSend GetDocument :: EvSend (QuerySelectorAll d "a.missing") :: rounds /\
     poll_rounds (fun d => QuerySelectorAll d "a.missing") rounds /\
     1000 < clock w' - clock Bench.w0).
Proof.
  apply (select_and_select_all_give_up_quietly Bench.quiet "a.missing" 1000 3 Bench.w0).
  - apply quiet_never_matches.
  - reflexivity.
  - reflexivity.
Defined.

(** The selector half of C2: for a selector that never matches, [wait_for]
    raises the typed error, not before the timeout has passed, and, when the
    protocol calls themselves take no time, at most 500 ms after it. *)
Lemma wait_for_selector_raises_not_found (E : Env) (selector : string)
    (query : option string) (timeout : Z) (fuel : nat) (w : World) :
  never_matches E selector ->
  str_truthy selector = true ->
  0 <= timeout ->
  timeout < 500 * Z.of_nat fuel ->
  exists w',
    wait_for E (S fuel) (Some selector) query timeout w =
      (Raise (ElementWithSelectorNotFoundException selector), w') /\
    timeout < clock w' - clock w /\
    ((forall n, latency E n = 0%N) -> clock w' - clock w <= timeout + 500).
Proof.
  intros Hquiet Hsel Hpos Hfuel.
  destruct (query_selector_no_match E selector fuel w Hquiet) as [d Hq].
  set (w1 := tick E (EvSend (QuerySelector d selector)) (tick E (EvSend GetDocument) w)) in *.
  destruct (wait_for_loop_raises E selector timeout Hquiet (clock w) fuel fuel w1)
    as (w' & Hrun & Hlate & Hsoon).
  { unfold w1, tick; simpl. lia. }
  exists w'. repeat split; auto.
  - unfold wait_for.
    rewrite (bind_return _ _ _ _ _ (loop_time_run w)).
    rewrite Hsel.
    rewrite (bind_return _ _ _ _ _ Hq). exact Hrun.
  - intros Hz. apply Hsoon; [exact Hz|].
    unfold w1, tick. cbn [clock]. rewrite !Hz. change (Z.of_N 0) with 0. lia.
Qed.

(* ===================================================================== *)
(** ** evaluate and js_dumps *)
(* ===================================================================== *)

(** C7, as the code has it.  A [ProtocolException] of the send itself is
    propagated unchanged.  Once [Runtime.evaluate] has answered with
    [response]: [evaluate] raises [JavascriptSyntaxException] exactly when
    there is no response, and [JavascriptException] with the remote details
    exactly when the response carries exception details.  For a response
    without exception details it returns the pair of protocol objects when
    [return_by_value] is unset and [None] when the returned value is falsy;
    when the value is truthy it decodes it, returning the decoded member or
    raising the error of the decoding. *)
Theorem evaluate_error_classes (E : Env) (expression : string)
    (await_promise return_by_value : bool) (w : World) :
  let outcome := fst (evaluate E expression await_promise return_by_value w) in
  (forall message,
     on_evaluate E (steps w) (Envelope expression) = Fail message ->
     outcome = Raise (ProtocolException message)) /\
  (forall response,
     on_evaluate E (steps w) (Envelope expression) = Ok response ->
     (outcome = Raise JavascriptSyntaxException <-> response = None) /\
     (forall details,
        outcome = Raise (JavascriptException details)
        <-> exists remote_object, response = Some (remote_object, Some details)) /\
     (forall remote_object,
        response = Some (remote_object, None) ->
        (return_by_value = false ->
         outcome = Return (EvObjects remote_object None)) /\
        (return_by_value = true -> truthy (value remote_object) = false ->
         outcome = Return EvNothing) /\
        (return_by_value = true -> truthy (value remote_object) = true ->
         outcome = match decode_x E remote_object with
                   | inr x => Return (EvValue x)
                   | inl failure => Raise (decode_error failure)
                   end))).
Proof.
  intros outcome. subst outcome. split.
  - intros message Hreply. unfold evaluate.
    rewrite (bind_raise _ _ _ _ _ (send_fail E _ _ _ _ Hreply)). reflexivity.
  - intros response Hreply. unfold evaluate.
    rewrite (bind_return _ _ _ _ _ (send_ok E _ _ _ _ Hreply)).
    destruct response as [[remote_object [details|]]|]; cbn beta iota.
    + split; [split; discriminate|]. split.
      * intros details'. split.
        -- intros H. injection H as <-. now exists remote_object.
        -- intros [ro H]. now injection H as _ <-.
      * intros ro H. discriminate.
    + assert (Hno : forall e,
        (forall failure, decode_error failure <> e) ->
        fst ((if return_by_value
              then if truthy (value remote_object)
                   then match decode_x E remote_object with
                        | inr x => ret (EvValue x)
                        | inl failure => raise (decode_error failure)
                        end
                   else ret EvNothing
              else ret (EvObjects remote_object None))
               (tick E (EvSend (RuntimeEvaluate (Envelope expression)
                                  await_promise return_by_value)) w))
        <> Raise e).
      { intros e He.
        destruct return_by_value; [|discriminate].
        destruct (truthy (value remote_object)); [|discriminate].
        destruct (decode_x E remote_object) as [failure|x]; [|discriminate].
        simpl. intros H. injection H as H. exact (He failure H). }
      split; [|split].
      * split; [|discriminate]. intros H. exfalso. revert H. apply Hno.
        intros []; discriminate.
      * intros details. split; [|intros [ro H]; discriminate].
        intros H. exfalso. revert H. apply Hno. intros []; discriminate.
      * intros ro H. injection H as <-. split; [|split].
        -- intros ->. reflexivity.
        -- intros -> ->. reflexivity.
        -- intros -> ->. destruct (decode_x E remote_object); reflexivity.
    + split; [split; reflexivity|]. split.
      * intros details'. split; [discriminate|]. intros [ro H]. discriminate.
      * intros ro H. discriminate.
Qed.

Lemma evaluate_error_classes_witness :
  fst (evaluate (Script.evaluating (Fail "Target closed") (inr PyNone))
         "1+1" false true Bench.w0) = Raise (ProtocolException "Target closed") /\
  fst (evaluate (Script.evaluating (Ok (Some (Bench.dumped, None))) (inr (PyInt 2)))
         "1+1" false true Bench.w0) = Return (EvValue (PyInt 2)) /\
  fst (evaluate (Script.evaluating (Ok (Some (Bench.dumped, None))) (inr (PyInt 2)))
         "1+1" false false Bench.w0) = Return (EvObjects Bench.dumped None).
Proof.
  split; [|split].
  - destruct (evaluate_error_classes
                (Script.evaluating (Fail "Target closed") (inr PyNone))
                "1+1" false true Bench.w0) as [Hsend _].
    exact (Hsend "Target closed" eq_refl).
  - destruct (evaluate_error_classes
                (Script.evaluating (Ok (Some (Bench.dumped, None))) (inr (PyInt 2)))
                "1+1" false true Bench.w0) as [_ Hanswered].
    destruct (Hanswered (Some (Bench.dumped, None)) eq_refl) as (_ & _ & Hplain).
    destruct (Hplain Bench.dumped eq_refl) as (_ & _ & Hdecoded).
    exact (Hdecoded eq_refl eq_refl).
  - destruct (evaluate_error_classes
                (Script.evaluating (Ok (Some (Bench.dumped, None))) (inr (PyInt 2)))
                "1+1" false false Bench.w0) as [_ Hanswered].
    destruct (Hanswered (Some (Bench.dumped, None)) eq_refl) as (_ & _ & Hplain).
    destruct (Hplain Bench.dumped eq_refl) as (Hobjects & _).
    exact (Hobjects eq_refl).
Defined.

(** C7 as stated fails.  The call below is neither left without a response
    nor answered with exception details, and it raises: in the first run the
    send itself fails; in the second the returned value is the text
    "undefined", which is truthy and is not JSON, so that decoding it
    raises. *)
Lemma evaluate_raises_in_other_cases :
  fst (evaluate (Script.evaluating (Fail "Target closed") (inr PyNone))
         "1+1" false true Bench.w0) = Raise (ProtocolException "Target closed") /\
  truthy (value Script.not_json) = true /\
  fst (evaluate (Script.evaluating (Ok (Some (Script.not_json, None))) (inl NotJson))
         "undefined" false true Bench.w0) = Raise JSONDecodeError.
Proof. repeat split. Qed.

(** C8.  [js_dumps] evaluates the first script; it evaluates the second one
    if and only if the first reply carried exception details; and it raises
    [JavascriptException] only with the details of the second reply, so an
    exception of the first script alone never reaches the caller. *)
Theorem js_dumps_fallback_chain (E : Env) (obj_name : string)
    (return_by_value : bool) (w : World)
    (first_object second_object : RemoteObject)
    (first_exception second_exception : option ExceptionDetails) :
  on_evaluate E (steps w) (js_code_a obj_name) =
    Ok (Some (first_object, first_exception)) ->
  (first_exception <> None ->
   on_evaluate E (S (steps w)) (js_code_b obj_name) =
     Ok (Some (second_object, second_exception))) ->
  let run := js_dumps E obj_name return_by_value w in
  trace (snd run) = trace w ++ dump_trace obj_name return_by_value first_exception /\
  (forall details,
     fst run = Raise (JavascriptException details)
     <-> (first_exception <> None /\ second_exception = Some details)) /\
  (first_exception <> None -> second_exception = None ->
   exists result, fst run = Return result) /\
  (first_exception = None -> exists result, fst run = Return result).
Proof.
  intros Hfirst Hsecond run. subst run. unfold js_dumps.
  erewrite bind_return; cycle 1.
  { erewrite bind_return; [|apply (send_ok E _ _ _ _ Hfirst)]. reflexivity. }
  destruct first_exception as [first_details|]; cbn [snd].
  - assert (Hne : Some first_details <> None) by discriminate.
    specialize (Hsecond Hne).
    erewrite bind_return; cycle 1.
    { erewrite bind_return; [|apply send_ok; exact Hsecond]. reflexivity. }
    destruct second_exception as [second_details|].
    + cbn. split; [now rewrite <- !app_assoc|]. split; [|split].
      * intros details. split.
        -- intros H. injection H as <-. split; [exact Hne | reflexivity].
        -- intros [_ H]. now injection H as <-.
      * intros _ H. discriminate.
      * intros H. discriminate.
    + destruct return_by_value; [destruct (truthy (value second_object)) eqn:Hv|];
        cbn; rewrite ?Hv; cbn.
      all: split; [now rewrite <- !app_assoc|].
      all: split; [intros details; split;
                     [discriminate | intros [_ H]; discriminate]|].
      all: split; [intros _ _; eexists; reflexivity | intros H; discriminate].
  - unfold bind at 1, ret at 1.
    destruct return_by_value; [destruct (truthy (value first_object)) eqn:Hv|];
      cbn; rewrite ?Hv; cbn.
    all: split; [reflexivity|].
    all: split; [intros details; split;
                   [discriminate | intros [H _]; now contradiction H]|].
    all: split; [intros H; now contradiction H | intros _; eexists; reflexivity].
Qed.

Lemma js_dumps_fallback_chain_witness :
  let E := Bench.browser 0 [] 0
             (fun script =>
                match script with
                | js_code_a _ => Some (Bench.dumped, Some Bench.thrown)
                | _ => Some (Bench.dumped, None)
                end) in
  let run := js_dumps E "window" true Bench.w0 in
  trace (snd run) = trace Bench.w0 ++ dump_trace "window" true (Some Bench.thrown) /\
  (forall details,
     fst run = Raise (JavascriptException details)
     <-> (Some Bench.thrown <> None /\ None = Some details)) /\
  (Some Bench.thrown <> None -> @None ExceptionDetails = None ->
   exists result, fst run = Return result) /\
  (Some Bench.thrown = None -> exists result, fst run = Return result).
Proof.
  intros E.
  apply (js_dumps_fallback_chain E "window" true Bench.w0
           Bench.dumped Bench.dumped (Some Bench.thrown) None).
  - reflexivity.
  - intros _. reflexivity.
Defined.

(* ===================================================================== *)
(** ** Text search *)
(* ===================================================================== *)

Section TextSearch.

Variable E : Env.

(** One hit adds at most one candidate, and never raises. *)
Lemma checktextnodeandappend_adds_at_most_one (type : option string)
    (results : list Element) (elem : Element) (query : string)
    (exact_match : bool) (w : World) :
  exists results' w',
    checktextnodeandappend E type results elem query exact_match w =
      (Return results', w') /\
    (results' = results \/ exists kept, results' = results ++ [kept]).
Proof.
  unfold checktextnodeandappend, append_safe, bind, element_update, ret.
  repeat match goal with
         | |- context [if ?b then _ else _] => destruct b
         | |- context [match ?x with _ => _ end] => destruct x
         end;
    eexists; eexists; (split; [reflexivity|]); eauto.
Qed.

(** A text-node hit whose parent is known resolves to that parent. *)
Lemma checktextnodeandappend_text_node (results : list Element)
    (elem enclosing : Element) (query : string) (w : World) :
  elem_node_type elem = 3 ->
  parent elem = Some enclosing ->
  isbanned (node enclosing) = false ->
  checktextnodeandappend E None results elem query false w =
    (Return (results ++ [enclosing]), w).
Proof.
  intros Htype Hparent Hbanned.
  unfold checktextnodeandappend, append_safe, bind, ret.
  rewrite Htype, Hparent. simpl. rewrite Hparent, Hbanned. reflexivity.
Qed.

(** The scan never holds more than one candidate. *)
Lemma scan_hits_holds_at_most_one (doc : option Node) (type : option string)
    (query : string) (exact_match : bool) (node_ids : list Z) :
  forall results w,
    (length results <= 1)%nat ->
    exists scanned w',
      scan_hits E doc type query exact_match node_ids results w =
        (Return scanned, w') /\
      match scanned with
      | inl _ => True
      | inr kept => (length kept <= 1)%nat
      end.
Proof.
  induction node_ids as [|nid rest IH]; intros results w Hlen.
  - exists (inr results), w. split; [reflexivity | exact Hlen].
  - cbn [scan_hits]. destruct results as [|first others].
    + destruct (create E _ doc) as [elem|]; [|apply IH; exact Hlen].
      destruct (checktextnodeandappend_adds_at_most_one type [] elem query
                  exact_match w) as (results' & w1 & Hrun & Hshape).
      rewrite (bind_return _ _ _ _ _ Hrun). apply IH.
      destruct Hshape as [->|[kept ->]]; simpl; lia.
    + exists (inl first), w. split; [reflexivity | exact I].
Qed.

End TextSearch.

(** Hits that contribute no candidate leave the scan where it was. *)
Lemma scan_hits_skips_empty_prefix (E : Env) (doc : option Node)
    (type : option string) (query : string) (exact_match : bool)
    (before : list Z) :
  forall w w0,
    scan_hits E doc type query exact_match before [] w = (Return (inr []), w0) ->
    forall hits,
      scan_hits E doc type query exact_match (before ++ hits) [] w =
      scan_hits E doc type query exact_match hits [] w0.
Proof.
  induction before as [|nid rest IH]; intros w w0 Hscan hits.
  - simpl in Hscan. injection Hscan as <-. reflexivity.
  - revert Hscan. cbn [scan_hits app].
    destruct (create E _ doc) as [elem|]; [|intros Hscan; now apply IH].
    unfold bind.
    destruct (checktextnodeandappend E type [] elem query exact_match w)
      as [[[|kept others]| |] w1]; try discriminate.
    + intros Hscan. now apply IH.
    + destruct rest; discriminate.
Qed.

(** The commands that precede the scan, and what follows it. *)
Lemma find_element_by_text_after_search (E : Env) (query search_id : string)
    (nresult : Z) (doc : option Node) (node_ids : list Z)
    (best_match flag : bool) (type : option string) (exact_match : bool)
    (w : World) :
  on_get_document E (steps w) = Ok doc ->
  on_perform_search E (S (steps w)) query = Ok (search_id, nresult) ->
  on_get_search_results E (S (S (steps w))) search_id 0 nresult = Ok node_ids ->
  on_discard_search_results E (S (S (S (steps w)))) search_id = Ok tt ->
  find_element_by_text E query best_match flag type exact_match w =
  (scanned <- scan_hits E doc type query exact_match node_ids [] ;;
   match scanned with
   | inl first => ret (Some first)
   | inr results =>
       finally
         (match results with
          | [] => ret None
          | elem :: _ => ret (Some elem)
          end)
         (send E DomDisable (on_disable E))
   end)
    (tick E (EvSend (DiscardSearchResults search_id))
       (tick E (EvSend (GetSearchResults search_id 0 nresult))
          (tick E (EvSend (PerformSearch query))
             (tick E (EvSend GetDocument) w)))).
Proof.
  intros Hdoc Hsearch Hresults Hdiscard. unfold find_element_by_text.
  rewrite (bind_return _ _ _ _ _ (send_ok E _ _ _ _ Hdoc)).
  erewrite bind_return; [|apply send_ok; exact Hsearch].
  cbn beta iota.
  erewrite bind_return; [|apply send_ok; exact Hresults].
  erewrite bind_return; [|apply send_ok; exact Hdiscard].
  reflexivity.
Qed.

(** C5.  Let a search be answered with hits of which the first ones
    contribute no candidate and the next one, [nid], contributes a
    non-empty candidate list.  Then [find_element_by_text] returns the
    first candidate of that list, whatever [best_match] is and whatever
    hits follow; when hits follow, they are not examined and nothing is
    sent any more.  Its answer never depends on [best_match], and its scan
    never holds more than one candidate, so there is nothing to score. *)
Theorem find_element_by_text_returns_first_candidate (E : Env)
    (query search_id : string) (nresult : Z)
    (return_enclosing_element : bool) (type : option string)
    (exact_match : bool) (doc : option Node) (before : list Z) (nid : Z)
    (rest : list Z) (elem first : Element) (others : list Element)
    (w w0 w1 : World) :
  on_get_document E (steps w) = Ok doc ->
  on_perform_search E (S (steps w)) query = Ok (search_id, nresult) ->
  on_get_search_results E (S (S (steps w))) search_id 0 nresult =
    Ok (before ++ nid :: rest) ->
  on_discard_search_results E (S (S (S (steps w)))) search_id = Ok tt ->
  scan_hits E doc type query exact_match before []
    (tick E (EvSend (DiscardSearchResults search_id))
       (tick E (EvSend (GetSearchResults search_id 0 nresult))
          (tick E (EvSend (PerformSearch query))
             (tick E (EvSend GetDocument) w)))) = (Return (inr []), w0) ->
  create E (filter_recurse E doc (fun n => node_id n =? nid)) doc = Some elem ->
  checktextnodeandappend E type [] elem query exact_match w0 =
    (Return (first :: others), w1) ->
  (rest = [] -> on_disable E (steps w1) = Ok tt) ->
  (forall best_match,
     fst (find_element_by_text E query best_match return_enclosing_element
            type exact_match w) = Return (Some first)) /\
  (rest <> [] ->
   forall best_match,
     snd (find_element_by_text E query best_match return_enclosing_element
            type exact_match w) = w1) /\
  (forall best_match w',
     find_element_by_text E query best_match return_enclosing_element type
       exact_match w' =
     find_element_by_text E query false return_enclosing_element type
       exact_match w') /\
  (exists scanned,
     scan_hits E doc type query exact_match (nid :: rest) [] w0 =
       (Return scanned, w1) /\
     answer_of scanned = Some first /\
     match scanned with
     | inl _ => rest <> []
     | inr kept => rest = [] /\ (length kept <= 1)%nat
     end).
Proof.
  intros Hdoc Hsearch Hresults Hdiscard Hbefore Hcreate Hcheck Hdisable.
  assert (Hscan : scan_hits E doc type query exact_match (nid :: rest) [] w0 =
                  (Return (match rest with
                           | [] => inr (first :: others)
                           | _ :: _ => inl first
                           end), w1)).
  { cbn [scan_hits]. rewrite Hcreate.
    rewrite (bind_return _ _ _ _ _ Hcheck). destruct rest; reflexivity. }
  assert (Hrun : forall best_match,
    find_element_by_text E query best_match return_enclosing_element type
      exact_match w =
    (Return (Some first),
     match rest with
     | [] => tick E (EvSend DomDisable) w1
     | _ :: _ => w1
     end)).
  { intros best_match.
    rewrite (find_element_by_text_after_search E query search_id nresult doc
               (before ++ nid :: rest) best_match return_enclosing_element
               type exact_match w Hdoc Hsearch Hresults Hdiscard).
    erewrite bind_return; cycle 1.
    { rewrite (scan_hits_skips_empty_prefix E doc type query exact_match
                 before _ w0 Hbefore). exact Hscan. }
    destruct rest as [|next rest]; [|reflexivity].
    unfold finally, ret.
    rewrite (send_ok E _ _ _ _ (Hdisable eq_refl)). reflexivity. }
  split; [|split; [|split]].
  - intros best_match. now rewrite Hrun.
  - intros Hrest best_match. rewrite Hrun.
    destruct rest; [contradiction | reflexivity].
  - reflexivity.
  - eexists. split; [exact Hscan|].
    destruct rest as [|next rest].
    + split; [reflexivity|]. split; [reflexivity|].
      destruct (checktextnodeandappend_adds_at_most_one E type [] elem query
                  exact_match w0) as (results' & w' & Hone & Hshape).
      rewrite Hcheck in Hone. injection Hone as <- <-.
      destruct Hshape as [H|[kept H]]; [discriminate|].
      simpl in H. injection H as _ ->. simpl. lia.
    + split; [reflexivity | discriminate].
Qed.

Lemma find_element_by_text_returns_first_candidate_witness :
  let E := Script.searching [9; 4; 6] in
  (forall best_match,
     fst (find_element_by_text E "login" best_match true None false Bench.w0) =
       Return (Some Bench.span_elem)) /\
  spec_best_match "login" [Bench.span_elem; Bench.button_elem] =
    Some Bench.button_elem.
Proof.
  intros E. split; [|reflexivity].
  destruct (find_element_by_text_returns_first_candidate E "login" "search-1" 3
              true None false (Some Bench.document) [9] 4 [6]
              Bench.span_text_elem Bench.span_elem []
              Bench.w0
              (mkWorld 0 4
                 [EvSend GetDocument; EvSend (PerformSearch "login");
                  EvSend (GetSearchResults "search-1" 0 3);
                  EvSend (DiscardSearchResults "search-1")] ∅)
              (mkWorld 0 4
                 [EvSend GetDocument; EvSend (PerformSearch "login");
                  EvSend (GetSearchResults "search-1" 0 3);
                  EvSend (DiscardSearchResults "search-1")] ∅)
              eq_refl eq_refl eq_refl eq_refl eq_refl eq_refl eq_refl)
    as [Hanswer _].
  - discriminate.
  - exact Hanswer.
Defined.

(** On the bench page a search for "login" hits the text of the span and the
    text of the button.  The best match by length would be the button; the
    lookup answers the span, with [best_match] set. *)
Example best_match_is_not_applied :
  fst (find_element_by_text Bench.quiet "login" true true None false Bench.w0)
    = Return (Some Bench.span_elem) /\
  spec_best_match "login" [Bench.span_elem; Bench.button_elem]
    = Some Bench.button_elem.
Proof. split; reflexivity. Qed.

(** [find] never looks at [return_enclosing_element]. *)
Lemma find_ignores_return_enclosing_element (E : Env) (fuel : nat)
    (query : string) (best_match flag : bool) (timeout : Z)
    (type : option string) (exact_match : bool) (w : World) :
  find E fuel query best_match flag timeout type exact_match w =
  find E fuel query best_match true timeout type exact_match w.
Proof.
  assert (Hloop : forall n now item w',
    find_loop E n query best_match flag timeout type exact_match now item w' =
    find_loop E n query best_match true timeout type exact_match now item w').
  { induction n as [|n IH]; intros now item w'; [reflexivity|].
    cbn [find_loop]. destruct (is_some item); [reflexivity|].
    change (find_element_by_text E query best_match flag type exact_match)
      with (find_element_by_text E query best_match true type exact_match).
    unfold bind. destruct (await_tab E w') as [[?| |] w1]; try reflexivity.
    destruct (find_element_by_text E query best_match true type exact_match w1)
      as [[item'| |] w2]; try reflexivity.
    cbn [loop_time]. destruct (timeout <? clock w2 - now); [reflexivity|].
    destruct (sleep E 500 w2) as [[?| |] w3]; try reflexivity.
    apply IH. }
  unfold find.
  change (find_element_by_text E query best_match flag type exact_match)
    with (find_element_by_text E query best_match true type exact_match).
  unfold bind. cbn [loop_time].
  destruct (find_element_by_text E query best_match true type exact_match w)
    as [[item| |] w1]; try reflexivity.
  destruct (negb (timeout =? 0)); [apply Hloop | reflexivity].
Qed.

(** C3, at the failing input.  On the bench page the first hit of a search
    for "login" is a text node (node type 3) inside a span.  Called with
    [return_enclosing_element] unset, [find] still answers the enclosing
    span and not the text node. *)
Theorem find_returns_parent_with_flag_unset :
  (elem_node_type Bench.span_text_elem = 3) /\
  (parent Bench.span_text_elem = Some Bench.span_elem) /\
  (fst (find Bench.quiet 1 "login" false false 10000 None false Bench.w0)
     = Return (Some Bench.span_elem)) /\
  (fst (find Bench.quiet 1 "login" false false 10000 None false Bench.w0)
     <> Return (Some Bench.span_text_elem)).
Proof.
  split; [reflexivity|]. split; [reflexivity|]. split; [reflexivity|].
  vm_compute. intros H. discriminate H.
Qed.

(* ===================================================================== *)
(** ** Stale-node recovery *)
(* ===================================================================== *)

Lemma catch_protocol_raise {A} (c : M A) (handler : string -> M A)
    (w w' : World) (message : string) :
  c w = (Raise (ProtocolException message), w') ->
  catch_protocol c handler w = handler message w'.
Proof. intros H. unfold catch_protocol. now rewrite H. Qed.

(** A computation followed by a pure wrapping of its value. *)
Lemma bind_wrapped {A B C} (c : M A) (inj : A -> B) (k : B -> M C) (w : World) :
  bind (bind c (fun a => ret (inj a))) k w = bind c (fun a => k (inj a)) w.
Proof. unfold bind, ret. destruct (c w) as [[a|e|] w']; reflexivity. Qed.

(** Returning the value of the last step is that step. *)
Lemma bind_ret_last {A} (c : M A) (w : World) : bind c ret w = c w.
Proof. unfold bind, ret. destruct (c w) as [[a|e|] w']; reflexivity. Qed.

Section StaleNode.

Variable E : Env.

Lemma resolve_doc_scoped (r : ref) (o : NodeObj) (w : World) :
  heap w !! r = Some o ->
  resolve_doc E (Some r) w = (Return (scope_doc o), w).
Proof. intros H. unfold resolve_doc, bind, load. rewrite H. reflexivity. Qed.

Lemma getattr_run (r : ref) (o : NodeObj) (name : string) (w : World) :
  heap w !! r = Some o ->
  getattr r name w = (Return (default PyNone (obj_dict o !! name)), w).
Proof. intros H. unfold getattr, bind, load. now rewrite H. Qed.

(** The refresh and the guard store that follow a stale-node failure. *)
Lemma refresh_run {A} (r : ref) (o : NodeObj) (q : Command) (w : World)
    (k : M A) :
  heap w !! r = Some o ->
  (update E r ;;; setattr r Tab__last (PyBool true) ;;; k) (tick E (EvSend q) w) =
  k (after_refresh E r o q w).
Proof.
  intros Hheap.
  unfold update, setattr, store, load, bind, ret, tick. cbn.
  rewrite Hheap. cbn. rewrite lookup_insert_eq. cbn.
  reflexivity.
Qed.

(** A scoped query whose reply arrives: one command, the reply resolved
    against the scope. *)
Lemma query_selector_all_scoped_ok (selector : string) (r : ref) (o : NodeObj)
    (d : Node) (node_ids : list Z) (fuel : nat) (w : World) :
  heap w !! r = Some o ->
  scope_doc o = Some d ->
  on_query_selector_all E (steps w) (node_id d) selector = Ok node_ids ->
  query_selector_all E (S fuel) selector (Some r) w =
    deliver_all E d node_ids (tick E (EvSend (QuerySelectorAll (node_id d) selector)) w).
Proof.
  intros Hheap Hdoc Hreply.
  cbn [query_selector_all].
  rewrite (bind_return _ _ _ _ _ (resolve_doc_scoped r o w Hheap)).
  rewrite Hdoc.
  erewrite bind_return; cycle 1.
  { unfold catch_protocol. erewrite bind_return; cycle 1.
    { apply send_ok. exact Hreply. }
    reflexivity. }
  unfold deliver_all. destruct node_ids; reflexivity.
Qed.

Lemma query_selector_scoped_ok (selector : string) (r : ref) (o : NodeObj)
    (d : Node) (nid : Z) (fuel : nat) (w : World) :
  heap w !! r = Some o ->
  scope_doc o = Some d ->
  on_query_selector E (steps w) (node_id d) selector = Ok nid ->
  query_selector E (S fuel) selector (Some r) w =
    resolve_single E d nid (tick E (EvSend (QuerySelector (node_id d) selector)) w).
Proof.
  intros Hheap Hdoc Hreply.
  cbn [query_selector].
  rewrite (bind_return _ _ _ _ _ (resolve_doc_scoped r o w Hheap)).
  rewrite Hdoc.
  erewrite bind_return; cycle 1.
  { unfold catch_protocol. erewrite bind_return; cycle 1.
    { apply send_ok. exact Hreply. }
    reflexivity. }
  reflexivity.
Qed.

(** One stale-node failure without the guard: the node is refreshed and the
    query starts over in the refreshed world. *)
Lemma query_selector_all_retry_step (selector : string) (r : ref) (o : NodeObj)
    (d : Node) (fuel : nat) (w : World) :
  heap w !! r = Some o ->
  scope_doc o = Some d ->
  node_not_found (on_query_selector_all E (steps w) (node_id d) selector) ->
  truthy (guard_of o) = false ->
  query_selector_all E (S fuel) selector (Some r) w =
  query_selector_all E fuel selector (Some r)
    (after_refresh E r o (QuerySelectorAll (node_id d) selector) w).
Proof.
  intros Hheap Hdoc (message & Hreply & Hmsg) Hguard.
  cbn [query_selector_all].
  rewrite (bind_return _ _ _ _ _ (resolve_doc_scoped r o w Hheap)).
  rewrite Hdoc.
  unfold bind at 1.
  erewrite catch_protocol_raise; cycle 1.
  { apply bind_raise. apply send_fail. exact Hreply. }
  rewrite Hmsg.
  erewrite bind_return; cycle 1.
  { apply getattr_run. unfold tick; cbn [heap]. exact Hheap. }
  fold (guard_of o). rewrite Hguard.
  rewrite (refresh_run r o _ w _ Hheap).
  unfold bind, ret.
  destruct (query_selector_all E fuel selector (Some r) _) as [[a|e|] w'];
    reflexivity.
Qed.

Lemma query_selector_retry_step (selector : string) (r : ref) (o : NodeObj)
    (d : Node) (fuel : nat) (w : World) :
  heap w !! r = Some o ->
  scope_doc o = Some d ->
  node_not_found (on_query_selector E (steps w) (node_id d) selector) ->
  truthy (guard_of o) = false ->
  query_selector E (S fuel) selector (Some r) w =
  query_selector E fuel selector (Some r)
    (after_refresh E r o (QuerySelector (node_id d) selector) w).
Proof.
  intros Hheap Hdoc (message & Hreply & Hmsg) Hguard.
  cbn [query_selector].
  rewrite (bind_return _ _ _ _ _ (resolve_doc_scoped r o w Hheap)).
  rewrite Hdoc.
  unfold bind at 1.
  erewrite catch_protocol_raise; cycle 1.
  { apply bind_raise. apply send_fail. exact Hreply. }
  rewrite Hmsg.
  erewrite bind_return; cycle 1.
  { apply getattr_run. unfold tick; cbn [heap]. exact Hheap. }
  fold (guard_of o). rewrite Hguard.
  rewrite (refresh_run r o _ w _ Hheap).
  unfold bind, ret.
  destruct (query_selector E fuel selector (Some r) _) as [[a|e|] w'];
    reflexivity.
Qed.

(** One stale-node failure with the guard found set: no refresh, no retry,
    an empty list. *)
Lemma query_selector_all_guard_hit (selector : string) (r : ref) (o : NodeObj)
    (d : Node) (fuel : nat) (w : World) :
  heap w !! r = Some o ->
  scope_doc o = Some d ->
  node_not_found (on_query_selector_all E (steps w) (node_id d) selector) ->
  truthy (guard_of o) = true ->
  is_Some (obj_dict o !! Tab__last) ->
  query_selector_all E (S fuel) selector (Some r) w =
  (Return [], after_guard E r o (QuerySelectorAll (node_id d) selector) w).
Proof.
  intros Hheap Hdoc (message & Hreply & Hmsg) Hguard [v Hv].
  cbn [query_selector_all].
  rewrite (bind_return _ _ _ _ _ (resolve_doc_scoped r o w Hheap)).
  rewrite Hdoc.
  unfold bind at 1.
  erewrite catch_protocol_raise; cycle 1.
  { apply bind_raise. apply send_fail. exact Hreply. }
  rewrite Hmsg.
  erewrite bind_return; cycle 1.
  { apply getattr_run. unfold tick; cbn [heap]. exact Hheap. }
  fold (guard_of o). rewrite Hguard.
  unfold delattr, store, load, bind, ret, tick. cbn.
  rewrite Hheap. rewrite Hv. reflexivity.
Qed.

Lemma query_selector_guard_hit (selector : string) (r : ref) (o : NodeObj)
    (d : Node) (fuel : nat) (w : World) :
  heap w !! r = Some o ->
  scope_doc o = Some d ->
  node_not_found (on_query_selector E (steps w) (node_id d) selector) ->
  truthy (guard_of o) = true ->
  is_Some (obj_dict o !! Tab__last) ->
  query_selector E (S fuel) selector (Some r) w =
  (Return ItemEmptyList, after_guard E r o (QuerySelector (node_id d) selector) w).
Proof.
  intros Hheap Hdoc (message & Hreply & Hmsg) Hguard [v Hv].
  cbn [query_selector].
  rewrite (bind_return _ _ _ _ _ (resolve_doc_scoped r o w Hheap)).
  rewrite Hdoc.
  unfold bind at 1.
  erewrite catch_protocol_raise; cycle 1.
  { apply bind_raise. apply send_fail. exact Hreply. }
  rewrite Hmsg.
  erewrite bind_return; cycle 1.
  { apply getattr_run. unfold tick; cbn [heap]. exact Hheap. }
  fold (guard_of o). rewrite Hguard.
  unfold delattr, store, load, bind, ret, tick. cbn.
  rewrite Hheap. rewrite Hv. reflexivity.
Qed.

(** The guard store writes the mangled name, which is not the name the guard
    test reads: a refresh leaves the guard test as it was. *)
Lemma guard_of_refreshed (n : nat) (o : NodeObj) :
  guard_of (refreshed E n o) = guard_of o.
Proof.
  unfold guard_of, refreshed. cbn [obj_dict].
  rewrite lookup_insert_ne; [reflexivity | discriminate].
Qed.

(** While the browser keeps reporting the node as not found, the scoped query
    keeps refreshing and retrying: for no amount of fuel does it return or
    raise. *)
Lemma stale_node_retry_is_unbounded (selector : string) (r : ref) :
  (forall n nid, node_not_found (on_query_selector_all E n nid selector)) ->
  (forall n nd, String.eqb (node_name (on_update E n nd)) "IFRAME" = false) ->
  forall fuel w o,
    heap w !! r = Some o ->
    String.eqb (node_name (obj_node o)) "IFRAME" = false ->
    truthy (guard_of o) = false ->
    fst (query_selector_all E fuel selector (Some r) w) = OutOfFuel.
Proof.
  intros Hstale Hname. induction fuel as [|fuel IH]; intros w o Hheap Ho Hguard.
  - reflexivity.
  - rewrite (query_selector_all_retry_step selector r o (obj_node o) fuel w);
      auto.
    + apply (IH _ (refreshed E (S (steps w)) o)).
      * unfold after_refresh. cbn [heap]. apply lookup_insert_eq.
      * unfold refreshed. cbn [obj_node]. apply Hname.
      * rewrite guard_of_refreshed. exact Hguard.
    + unfold scope_doc. now rewrite Ho.
Qed.

End StaleNode.

Lemma deliver_all_pure (E : Env) (doc : Node) (node_ids : list Z) (w : World) :
  snd (deliver_all E doc node_ids w) = w.
Proof.
  unfold deliver_all. destruct node_ids; [reflexivity|].
  apply collect_results_pure.
Qed.

Lemma resolve_single_pure (E : Env) (doc : Node) (nid : Z) (w : World) :
  snd (resolve_single E doc nid w) = w.
Proof.
  unfold resolve_single. destruct (nid =? 0); [reflexivity|].
  destruct (filter_recurse E _ _); [|reflexivity].
  destruct (create E _ _); reflexivity.
Qed.

(** C1, as the code has it.  Let a query scoped to a node fail with the
    stale-node protocol error.
    - When the node does not carry a truthy [__last] attribute, the node is
      refreshed by its [update] and the same query (same selector, same node
      object) is sent again; when that retry is answered, the call has sent
      the query, refreshed once and sent the query once more, and its outcome
      is what the answer resolves to against the refreshed node.
    - When the node carries a truthy [__last] attribute (and the attribute
      that the guard deletes), nothing is refreshed or retried and the call
      returns an empty list: the protocol error does not reach the caller.
    This holds for [query_selector_all] and for [query_selector]. *)
Theorem stale_node_refresh_and_retry (E : Env) (selector : string) (r : ref)
    (o : NodeObj) (d : Node) (w : World) :
  heap w !! r = Some o ->
  scope_doc o = Some d ->
  (node_not_found (on_query_selector_all E (steps w) (node_id d) selector) ->
   (truthy (guard_of o) = false ->
    forall d' node_ids fuel,
      scope_doc (refreshed E (S (steps w)) o) = Some d' ->
      on_query_selector_all E (S (S (steps w))) (node_id d') selector = Ok node_ids ->
      exists w' outcome,
        query_selector_all E (S (S fuel)) selector (Some r) w = (outcome, w') /\
        outcome = fst (deliver_all E d' node_ids w') /\
        trace w' = trace w ++
          [EvSend (QuerySelectorAll (node_id d) selector); EvUpdate r;
           EvSend (QuerySelectorAll (node_id d') selector)]) /\
   (truthy (guard_of o) = true ->
    is_Some (obj_dict o !! Tab__last) ->
    forall fuel, exists w',
      query_selector_all E (S fuel) selector (Some r) w = (Return [], w') /\
      trace w' = trace w ++ [EvSend (QuerySelectorAll (node_id d) selector)])) /\
  (node_not_found (on_query_selector E (steps w) (node_id d) selector) ->
   (truthy (guard_of o) = false ->
    forall d' nid fuel,
      scope_doc (refreshed E (S (steps w)) o) = Some d' ->
      on_query_selector E (S (S (steps w))) (node_id d') selector = Ok nid ->
      exists w' outcome,
        query_selector E (S (S fuel)) selector (Some r) w = (outcome, w') /\
        outcome = fst (resolve_single E d' nid w') /\
        trace w' = trace w ++
          [EvSend (QuerySelector (node_id d) selector); EvUpdate r;
           EvSend (QuerySelector (node_id d') selector)]) /\
   (truthy (guard_of o) = true ->
    is_Some (obj_dict o !! Tab__last) ->
    forall fuel, exists w',
      query_selector E (S fuel) selector (Some r) w = (Return ItemEmptyList, w') /\
      trace w' = trace w ++ [EvSend (QuerySelector (node_id d) selector)])).
Proof.
  intros Hheap Hdoc. split; intros Hstale; split.
  - intros Hguard d' node_ids fuel Hdoc' Hreply.
    rewrite (query_selector_all_retry_step E selector r o d _ w Hheap Hdoc Hstale Hguard).
    set (w2 := after_refresh E r o _ w).
    assert (Hheap2 : heap w2 !! r = Some (refreshed E (S (steps w)) o))
      by (unfold w2, after_refresh; cbn [heap]; apply lookup_insert_eq).
    rewrite (query_selector_all_scoped_ok E selector r _ d' node_ids fuel w2
               Hheap2 Hdoc' Hreply).
    eexists. eexists. split; [apply surjective_pairing|].
    rewrite deliver_all_pure. split; [reflexivity|].
    unfold w2, after_refresh, tick. cbn [trace]. now rewrite <- !app_assoc.
  - intros Hguard Hattr fuel.
    rewrite (query_selector_all_guard_hit E selector r o d fuel w
               Hheap Hdoc Hstale Hguard Hattr).
    eexists. split; reflexivity.
  - intros Hguard d' nid fuel Hdoc' Hreply.
    rewrite (query_selector_retry_step E selector r o d _ w Hheap Hdoc Hstale Hguard).
    set (w2 := after_refresh E r o _ w).
    assert (Hheap2 : heap w2 !! r = Some (refreshed E (S (steps w)) o))
      by (unfold w2, after_refresh; cbn [heap]; apply lookup_insert_eq).
    rewrite (query_selector_scoped_ok E selector r _ d' nid fuel w2
               Hheap2 Hdoc' Hreply).
    eexists. eexists. split; [apply surjective_pairing|].
    rewrite resolve_single_pure. split; [reflexivity|].
    unfold w2, after_refresh, tick. cbn [trace]. now rewrite <- !app_assoc.
  - intros Hguard Hattr fuel.
    rewrite (query_selector_guard_hit E selector r o d fuel w
               Hheap Hdoc Hstale Hguard Hattr).
    eexists. split; reflexivity.
Qed.

Lemma bench_stale_reply {A} (a : A) (n until : nat) :
  (n <? until)%nat = true ->
  node_not_found (if (n <? until)%nat then Fail Bench.stale_message else Ok a).
Proof.
  intros H. rewrite H. exists Bench.stale_message. split; reflexivity.
Defined.

Lemma stale_node_refresh_and_retry_witness :
  let E := Bench.browser 1 [5] 5 Bench.no_script in
  (exists w',
     query_selector_all E 2 "button" (Some 1%positive) Bench.w_scoped =
       (Return [Bench.button_elem], w') /\
     trace w' =
       [EvSend (QuerySelectorAll 2 "button"); EvUpdate 1%positive;
        EvSend (QuerySelectorAll 2 "button")]) /\
  (exists w',
     query_selector E 1 "button" (Some 1%positive) Bench.w_guarded =
       (Return ItemEmptyList, w') /\
     trace w' = [EvSend (QuerySelector 2 "button")]).
Proof.
  intros E. split.
  - destruct (stale_node_refresh_and_retry E "button" 1%positive Bench.body_obj
                Bench.body Bench.w_scoped eq_refl eq_refl) as [Hall _].
    destruct (Hall (bench_stale_reply [5] 0 1 eq_refl)) as [Hretry _].
    destruct (Hretry eq_refl Bench.body [5] 0%nat eq_refl eq_refl)
      as (w' & outcome & Hrun & Hout & Htrace).
    exists w'. split; [|exact Htrace].
    etransitivity; [exact Hrun|]. rewrite Hout. reflexivity.
  - destruct (stale_node_refresh_and_retry E "button" 1%positive Bench.guarded_obj
                Bench.body Bench.w_guarded eq_refl eq_refl) as [_ Hone].
    destruct (Hone (bench_stale_reply 5 0 1 eq_refl)) as [_ Hguard].
    destruct (Hguard eq_refl (ex_intro _ (PyBool true) eq_refl) 0%nat)
      as (w' & Hrun & Htrace).
    exists w'. split; [exact Hrun | exact Htrace].
Defined.

(** C1 as stated fails.  On the bench page the scoped query is answered with
    the stale-node error twice in a row (at steps 0 and 2) and with an empty
    result afterwards.  The claim has the call end in that protocol error;
    the call returns normally, with an empty result, for both query
    functions. *)
Lemma stale_node_error_is_not_propagated :
  let E := Bench.browser 4 [] 0 Bench.no_script in
  node_not_found (on_query_selector_all E 0 2 "button") /\
  node_not_found (on_query_selector_all E 2 2 "button") /\
  fst (query_selector_all E 5 "button" (Some 1%positive) Bench.w_scoped) = Return [] /\
  fst (query_selector E 5 "button" (Some 1%positive) Bench.w_scoped) = Return ItemNone /\
  (forall message,
     fst (query_selector_all E 5 "button" (Some 1%positive) Bench.w_scoped)
       <> Raise (ProtocolException message)) /\
  (forall message,
     fst (query_selector E 5 "button" (Some 1%positive) Bench.w_scoped)
       <> Raise (ProtocolException message)).
Proof.
  intros E.
  split; [exists Bench.stale_message; split; reflexivity|].
  split; [exists Bench.stale_message; split; reflexivity|].
  split; [vm_compute; reflexivity|].
  split; [vm_compute; reflexivity|].
  split; intros message; vm_compute; intros H; discriminate H.
Qed.

(** What the trace of that run shows: a second refresh and a third query.
    The guard store went to [_Tab__last], the guard test read [__last]. *)
Example stale_node_guard_is_never_seen :
  let E := Bench.browser 4 [] 0 Bench.no_script in
  let w' := snd (query_selector_all E 5 "button" (Some 1%positive) Bench.w_scoped) in
  trace w' =
    [EvSend (QuerySelectorAll 2 "button"); EvUpdate 1%positive;
     EvSend (QuerySelectorAll 2 "button"); EvUpdate 1%positive;
     EvSend (QuerySelectorAll 2 "button")] /\
  (obj_dict <$> heap w' !! 1%positive) = Some {[ Tab__last := PyBool true ]}.
Proof. split; vm_compute; reflexivity. Qed.

(* ===================================================================== *)
(** ** StorageId on the wire *)
(* ===================================================================== *)

Module DomStorageWireFacts.
Import DomStorage DomStorageWire.

Lemma decode_encode (self : StorageId) :
  from_json (to_json self) = Decoded self.
Proof.
  destruct self as [local [origin|] [key|]];
    unfold from_json, optional_str, to_json; simpl;
    by simplify_map_eq.
Qed.

(** X1.  Decoding what [to_json] produced gives back the storage id, with
    every field as it was: an unset optional field comes back unset, a set
    one (the empty string included) comes back set. *)
Theorem from_json_to_json (self : StorageId) :
  from_json (to_json self) = Decoded self.
Proof. apply decode_encode. Qed.

(** X2.  [from_json] fails exactly when ["isLocalStorage"] is missing, and
    then with the [KeyError] of that key; the two optional keys may both be
    missing. *)
Theorem from_json_key_error (json : gmap string PyVal) :
  (from_json json = KeyError "isLocalStorage" <-> json !! "isLocalStorage" = None) /\
  (forall key, from_json json = KeyError key -> key = "isLocalStorage") /\
  (is_Some (json !! "isLocalStorage") -> exists decoded, from_json json = Decoded decoded).
Proof.
  unfold from_json. destruct (json !! "isLocalStorage") as [local|].
  - split; [split; discriminate|]. split; [discriminate|].
    intros _. eexists. reflexivity.
  - split; [split; reflexivity|]. split.
    + intros key H. now injection H as <-.
    + intros [v Hv]. discriminate Hv.
Qed.

Lemma from_json_key_error_witness :
  exists decoded,
    from_json (<["isLocalStorage" := PyBool true]> ∅) = Decoded decoded.
Proof.
  apply (from_json_key_error (<["isLocalStorage" := PyBool true]> ∅)).
  exists (PyBool true). reflexivity.
Defined.

(** X3.  [from_json] reads three keys only: a binding of any other key does
    not change what it decodes, and an optional key bound to [None] decodes
    like the key being absent. *)
Theorem from_json_ignores_unknown_and_null (json : gmap string PyVal)
    (key : string) (v : PyVal) :
  (key <> "isLocalStorage" -> key <> "securityOrigin" -> key <> "storageKey" ->
   from_json (<[key := v]> json) = from_json json) /\
  from_json (<["securityOrigin" := PyNone]> json) =
    from_json (delete "securityOrigin" json) /\
  from_json (<["storageKey" := PyNone]> json) =
    from_json (delete "storageKey" json).
Proof.
  unfold from_json, optional_str. split; [|split].
  - intros H1 H2 H3. by rewrite !lookup_insert_ne.
  - rewrite lookup_insert_eq, lookup_delete_eq.
    rewrite !lookup_insert_ne, !lookup_delete_ne by discriminate.
    reflexivity.
  - rewrite lookup_insert_eq, lookup_delete_eq.
    rewrite !lookup_insert_ne, !lookup_delete_ne by discriminate.
    reflexivity.
Qed.

Lemma from_json_ignores_unknown_and_null_witness :
  from_json (<["frameId" := PyStr "F1"]> (<["isLocalStorage" := PyBool true]> ∅)) =
  from_json (<["isLocalStorage" := PyBool true]> ∅).
Proof.
  apply (from_json_ignores_unknown_and_null
           (<["isLocalStorage" := PyBool true]> ∅) "frameId" (PyStr "F1"));
    discriminate.
Defined.

(** X4.  Re-encoding a decoded dict is a normalisation of it.  The value
    under ["isLocalStorage"] becomes the boolean [bool(v)] of the value [v]
    the dict had there; under each optional key, a value [v] other than
    [None] becomes the string [str(v)], and a missing or [None] value
    leaves the key out; no other key is kept.  So the result has only keys
    the dict had. *)
Theorem to_json_from_json_normalises (json : gmap string PyVal)
    (decoded : StorageId) :
  from_json json = Decoded decoded ->
  (exists v, json !! "isLocalStorage" = Some v /\
     to_json decoded !! "isLocalStorage" = Some (PyBool (truthy v))) /\
  (forall key, key = "securityOrigin" \/ key = "storageKey" ->
     to_json decoded !! key =
       match json !! key with
       | None => None
       | Some PyNone => None
       | Some v => Some (PyStr (py_str v))
       end) /\
  (forall key, key <> "isLocalStorage" -> key <> "securityOrigin" ->
     key <> "storageKey" -> to_json decoded !! key = None) /\
  (forall key, is_Some (to_json decoded !! key) -> is_Some (json !! key)).
Proof.
  unfold from_json, optional_str.
  destruct (json !! "isLocalStorage") as [local|] eqn:Hl; [|discriminate].
  intros Hdec. injection Hdec as <-. unfold to_json; simpl.
  split; [|split; [|split]].
  - exists local. split; [reflexivity|].
    destruct (json !! "securityOrigin") as [[| | |]|];
      destruct (json !! "storageKey") as [[| | |]|]; by simplify_map_eq.
  - intros key [->| ->].
    + destruct (json !! "securityOrigin") as [[| | |]|];
        destruct (json !! "storageKey") as [[| | |]|]; by simplify_map_eq.
    + destruct (json !! "securityOrigin") as [[| | |]|];
        destruct (json !! "storageKey") as [[| | |]|]; by simplify_map_eq.
  - intros key H1 H2 H3.
    destruct (json !! "securityOrigin") as [[| | |]|];
      destruct (json !! "storageKey") as [[| | |]|]; by simplify_map_eq.
  - destruct (json !! "securityOrigin") as [[| | |]|] eqn:Ho;
      destruct (json !! "storageKey") as [[| | |]|] eqn:Hk;
      intros key [x Hx].
    all: repeat (apply lookup_insert_Some in Hx as [[<- _]|[_ Hx]]; [eauto|]).
    all: by rewrite lookup_empty in Hx.
Qed.

Lemma to_json_from_json_normalises_witness :
  let json : gmap string PyVal :=
    <["isLocalStorage" := PyInt 1]>
      (<["securityOrigin" := PyInt 443]> (<["storageKey" := PyNone]> ∅)) in
  let decoded := mkStorageId true (Some "443") None in
  to_json decoded !! "isLocalStorage" = Some (PyBool true) /\
  to_json decoded !! "securityOrigin" = Some (PyStr "443") /\
  to_json decoded !! "storageKey" = None.
Proof.
  intros json decoded.
  destruct (to_json_from_json_normalises json decoded eq_refl)
    as ([v [Hv Hlocal]] & Hoptional & _).
  split; [|split].
  - rewrite Hlocal. vm_compute in Hv. injection Hv as <-. reflexivity.
  - rewrite (Hoptional "securityOrigin" (or_introl eq_refl)). reflexivity.
  - rewrite (Hoptional "storageKey" (or_intror eq_refl)). reflexivity.
Defined.

(** X5.  Each of the four commands that take a storage id carries it so
    that decoding the ["storageId"] of the params gives the id back; the
    two commands without arguments carry no params at all. *)
Theorem storage_commands_carry_the_id (storage_id : StorageId)
    (key value0 : string) :
  carried_storage_id (clear storage_id) = Some (Decoded storage_id) /\
  carried_storage_id (get_dom_storage_items storage_id) = Some (Decoded storage_id) /\
  carried_storage_id (remove_dom_storage_item storage_id key) =
    Some (Decoded storage_id) /\
  carried_storage_id (set_dom_storage_item storage_id key value0) =
    Some (Decoded storage_id) /\
  params disable = None /\ params enable = None.
Proof.
  unfold carried_storage_id, clear, get_dom_storage_items,
    remove_dom_storage_item, set_dom_storage_item; simpl.
  repeat split; simplify_map_eq; rewrite ?decode_encode; reflexivity.
Qed.

End DomStorageWireFacts.

(* ===================================================================== *)
(** ** Protocol errors and missing documents in the two queries *)
(* ===================================================================== *)

Section QueryErrors.

Variable E : Env.

Lemma resolve_doc_unscoped (doc : option Node) (w : World) :
  on_get_document E (steps w) = Ok doc ->
  resolve_doc E None w = (Return doc, tick E (EvSend GetDocument) w).
Proof. intros H. unfold resolve_doc. now apply send_ok. Qed.

(** X6.  A query that is not scoped to a node propagates a protocol error
    of the query unchanged, whatever its message, after sending
    [DOM.disable]; when [DOM.disable] fails too, its error is the one the
    caller sees. *)
Theorem unscoped_query_error_is_propagated (selector : string) (d : Node)
    (message : string) (fuel : nat) (w : World) :
  on_get_document E (steps w) = Ok (Some d) ->
  let sent q := trace w ++ [EvSend GetDocument; EvSend q; EvSend DomDisable] in
  (on_query_selector_all E (S (steps w)) (node_id d) selector = Fail message ->
   (on_disable E (S (S (steps w))) = Ok tt ->
    exists w',
      query_selector_all E (S fuel) selector None w =
        (Raise (ProtocolException message), w') /\
      trace w' = sent (QuerySelectorAll (node_id d) selector)) /\
   (forall other, on_disable E (S (S (steps w))) = Fail other ->
    exists w',
      query_selector_all E (S fuel) selector None w =
        (Raise (ProtocolException other), w') /\
      trace w' = sent (QuerySelectorAll (node_id d) selector))) /\
  (on_query_selector E (S (steps w)) (node_id d) selector = Fail message ->
   (on_disable E (S (S (steps w))) = Ok tt ->
    exists w',
      query_selector E (S fuel) selector None w =
        (Raise (ProtocolException message), w') /\
      trace w' = sent (QuerySelector (node_id d) selector)) /\
   (forall other, on_disable E (S (S (steps w))) = Fail other ->
    exists w',
      query_selector E (S fuel) selector None w =
        (Raise (ProtocolException other), w') /\
      trace w' = sent (QuerySelector (node_id d) selector))).
Proof.
  intros Hdoc sent. split; intros Hfail.
  all: split; [intros Hdis | intros other Hdis].
  all: eexists; split.
  all: try (cbn [query_selector_all query_selector];
    rewrite (bind_return _ _ _ _ _ (resolve_doc_unscoped _ w Hdoc));
    unfold bind at 1;
    erewrite catch_protocol_raise;
      [| apply bind_raise; apply send_fail; exact Hfail]).
  all: try (erewrite bind_return; [reflexivity | apply send_ok; exact Hdis]).
  all: try (erewrite bind_raise; [reflexivity | apply send_fail; exact Hdis]).
  all: unfold sent, tick; cbn [trace]; now rewrite <- !app_assoc.
Qed.

(** X7.  A query scoped to a node swallows a protocol error whose message
    is not the stale-node one: nothing is refreshed or retried, the node is
    left as it is, and the caller gets the empty result ([[]] from
    [query_selector_all], [None] from [query_selector]). *)
Theorem scoped_query_swallows_other_errors (selector : string) (r : ref)
    (o : NodeObj) (d : Node) (message : string) (fuel : nat) (w : World) :
  heap w !! r = Some o ->
  scope_doc o = Some d ->
  contains "could not find node" (lower message) = false ->
  (on_query_selector_all E (steps w) (node_id d) selector = Fail message ->
   query_selector_all E (S fuel) selector (Some r) w =
     (Return [], tick E (EvSend (QuerySelectorAll (node_id d) selector)) w)) /\
  (on_query_selector E (steps w) (node_id d) selector = Fail message ->
   query_selector E (S fuel) selector (Some r) w =
     (Return ItemNone, tick E (EvSend (QuerySelector (node_id d) selector)) w)).
Proof.
  intros Hheap Hdoc Hmsg. split; intros Hfail.
  all: cbn [query_selector_all query_selector].
  all: rewrite (bind_return _ _ _ _ _ (resolve_doc_scoped E r o w Hheap)).
  all: rewrite Hdoc.
  all: unfold bind at 1.
  all: erewrite catch_protocol_raise;
         [| apply bind_raise; apply send_fail; exact Hfail].
  all: rewrite Hmsg; reflexivity.
Qed.

(** X8.  Without a document to query (none fetched, or a scoping iframe
    without content document) no query is sent: [query_selector] raises
    [DriverException], [query_selector_all] fails on the attribute access
    [doc.node_id]. *)
Theorem query_without_document (selector : string) (fuel : nat) (w : World) :
  (on_get_document E (steps w) = Ok None ->
   query_selector E (S fuel) selector None w =
     (Raise (DriverException "Failed to find Document"),
      tick E (EvSend GetDocument) w) /\
   query_selector_all E (S fuel) selector None w =
     (Raise (AttributeError "node_id"), tick E (EvSend GetDocument) w)) /\
  (forall r o,
     heap w !! r = Some o ->
     node_name (obj_node o) = "IFRAME" ->
     content_document (obj_node o) = None ->
     query_selector E (S fuel) selector (Some r) w =
       (Raise (DriverException "Failed to find Document"), w) /\
     query_selector_all E (S fuel) selector (Some r) w =
       (Raise (AttributeError "node_id"), w)).
Proof.
  split.
  - intros Hdoc. split.
    all: cbn [query_selector_all query_selector].
    all: rewrite (bind_return _ _ _ _ _ (resolve_doc_unscoped _ w Hdoc)).
    all: reflexivity.
  - intros r o Hheap Hname Hcontent.
    assert (Hscope : scope_doc o = None).
    { unfold scope_doc. rewrite Hname. simpl. exact Hcontent. }
    split.
    all: cbn [query_selector_all query_selector].
    all: rewrite (bind_return _ _ _ _ _ (resolve_doc_scoped E r o w Hheap)).
    all: rewrite Hscope; reflexivity.
Qed.

End QueryErrors.

Lemma unscoped_query_error_is_propagated_witness :
  let E := Script.failing "DOM Error while querying" Script.enabled in
  (exists w',
     query_selector_all E 1 "a[" None Bench.w0 =
       (Raise (ProtocolException "DOM Error while querying"), w') /\
     trace w' =
       [EvSend GetDocument; EvSend (QuerySelectorAll 1 "a["); EvSend DomDisable]) /\
  (exists w',
     query_selector E 1 "a[" None Bench.w0 =
       (Raise (ProtocolException "DOM Error while querying"), w') /\
     trace w' =
       [EvSend GetDocument; EvSend (QuerySelector 1 "a["); EvSend DomDisable]).
Proof.
  intros E.
  destruct (unscoped_query_error_is_propagated E "a[" Bench.document
              "DOM Error while querying" 0 Bench.w0 eq_refl) as [Hall Hone].
  split.
  - destruct (Hall eq_refl) as [H _]. exact (H eq_refl).
  - destruct (Hone eq_refl) as [H _]. exact (H eq_refl).
Defined.

Lemma scoped_query_swallows_other_errors_witness :
  let E := Script.failing "DOM Error while querying" Script.enabled in
  fst (query_selector_all E 1 "a[" (Some 1%positive) Bench.w_scoped) = Return [] /\
  fst (query_selector E 1 "a[" (Some 1%positive) Bench.w_scoped) = Return ItemNone.
Proof.
  intros E.
  destruct (scoped_query_swallows_other_errors E "a[" 1%positive Bench.body_obj
              Bench.body "DOM Error while querying" 0 Bench.w_scoped
              eq_refl eq_refl eq_refl) as [Hall Hone].
  split.
  - exact (f_equal fst (Hall eq_refl)).
  - exact (f_equal fst (Hone eq_refl)).
Defined.

Lemma query_without_document_witness :
  fst (query_selector Script.blank 1 "a" None Bench.w0) =
    Raise (DriverException "Failed to find Document") /\
  fst (query_selector_all Bench.quiet 1 "a" (Some 1%positive) Script.w_frame) =
    Raise (AttributeError "node_id").
Proof.
  destruct (query_without_document Script.blank "a" 0 Bench.w0) as [Hnone _].
  destruct (query_without_document Bench.quiet "a" 0 Script.w_frame) as [_ Hframe].
  split.
  - destruct (Hnone eq_refl) as [H _]. exact (f_equal fst H).
  - destruct (Hframe 1%positive Script.empty_frame eq_refl eq_refl eq_refl)
      as [_ H].
    exact (f_equal fst H).
Defined.

(* ===================================================================== *)
(** ** Results of an answered query; matches that arrive late *)
(* ===================================================================== *)

Section Answered.

Variable E : Env.

Lemma collect_results_lists_resolved (doc : Node) (node_ids : list Z) :
  (forall nid nd,
     In nid node_ids ->
     filter_recurse E (Some doc) (fun n => node_id n =? nid) = Some nd ->
     is_Some (create E (Some nd) (Some doc))) ->
  forall results w,
    collect_results E doc node_ids results w =
      (Return (results ++ omap (element_of E doc) node_ids), w).
Proof.
  induction node_ids as [|nid rest IH]; intros Hcreate results w.
  - simpl. now rewrite app_nil_r.
  - cbn [collect_results omap list_omap]. unfold element_of at 1.
    destruct (filter_recurse E (Some doc) (fun n => node_id n =? nid))
      as [nd|] eqn:Hfound.
    + destruct (Hcreate nid nd (or_introl eq_refl) Hfound) as [elem Helem].
      rewrite Helem. rewrite IH.
      * now rewrite <- app_assoc.
      * intros nid' nd' Hin. apply Hcreate. now right.
    + apply IH. intros nid' nd' Hin. apply Hcreate. now right.
Qed.

(** X9.  An answered [query_selector_all] returns, in the order of the
    reply, the elements of the node ids that resolve in the fetched
    document; ids that do not resolve there are skipped without error, so
    the result is never longer than the reply. *)
Theorem query_selector_all_lists_resolved_ids (selector : string) (d : Node)
    (node_ids : list Z) (fuel : nat) (w : World) :
  on_get_document E (steps w) = Ok (Some d) ->
  on_query_selector_all E (S (steps w)) (node_id d) selector = Ok node_ids ->
  (forall nid nd,
     In nid node_ids ->
     filter_recurse E (Some d) (fun n => node_id n =? nid) = Some nd ->
     is_Some (create E (Some nd) (Some d))) ->
  fst (query_selector_all E (S fuel) selector None w) =
    Return (omap (element_of E d) node_ids) /\
  (length (omap (element_of E d) node_ids) <= length node_ids)%nat.
Proof.
  intros Hdoc Hreply Hcreate. split.
  - cbn [query_selector_all].
    rewrite (bind_return _ _ _ _ _ (resolve_doc_unscoped E _ w Hdoc)).
    erewrite bind_return; cycle 1.
    { unfold catch_protocol. erewrite bind_return; cycle 1.
      { apply send_ok. exact Hreply. }
      reflexivity. }
    destruct node_ids as [|nid rest]; [reflexivity|].
    rewrite (collect_results_lists_resolved d (nid :: rest) Hcreate). reflexivity.
  - clear. induction node_ids as [|nid rest IH];
      cbn [omap list_omap length]; [lia|].
    destruct (element_of E d nid); cbn [length]; lia.
Qed.

(** X10.  A match that arrives with the poll that crosses the deadline is
    lost: when the first lookup finds nothing and the second one finds an
    element but ends after the timeout, [select] returns [None] and
    [wait_for] raises its not-found error. *)
Theorem late_match_is_lost (selector : string) (timeout : Z)
    (_node : option ref) (elem : Element) (fuel : nat) (w w1 w2 w2' : World) :
  timeout <> 0 ->
  (query_selector E (S fuel) selector _node w = (Return ItemNone, w1) ->
   query_selector E (S fuel) selector _node (tick E EvAwaitTab w1) =
     (Return (ItemElement elem), w2) ->
   timeout < clock w2 - clock w ->
   select E (S fuel) selector timeout _node w = (Return ItemNone, w2)) /\
  (str_truthy selector = true ->
   query_selector E (S fuel) selector None w = (Return ItemNone, w1) ->
   query_selector E (S fuel) selector None w1 = (Return (ItemElement elem), w2') ->
   timeout < clock w2' - clock w ->
   forall query,
     wait_for E (S fuel) (Some selector) query timeout w =
       (Raise (ElementWithSelectorNotFoundException selector), w2')).
Proof.
  intros Hnz.
  assert (Htruthy : negb (timeout =? 0) = true).
  { destruct (Z.eqb_spec timeout 0); [contradiction | reflexivity]. }
  split.
  - intros Hfirst Hsecond Hlate. unfold select.
    rewrite (bind_return _ _ _ _ _ (loop_time_run w)).
    rewrite (bind_return _ _ _ _ _ Hfirst). rewrite Htruthy.
    cbn [select_loop item_truthy].
    rewrite (bind_return _ _ _ _ _ (await_tab_run E w1)).
    rewrite (bind_return _ _ _ _ _ Hsecond).
    rewrite (bind_return _ _ _ _ _ (loop_time_run w2)).
    apply Z.ltb_lt in Hlate. rewrite Hlate. reflexivity.
  - intros Hsel Hfirst Hsecond Hlate query. unfold wait_for.
    rewrite (bind_return _ _ _ _ _ (loop_time_run w)). rewrite Hsel.
    rewrite (bind_return _ _ _ _ _ Hfirst).
    cbn [wait_for_loop item_truthy].
    rewrite (bind_return _ _ _ _ _ Hsecond).
    rewrite (bind_return _ _ _ _ _ (loop_time_run w2')).
    apply Z.ltb_lt in Hlate. rewrite Hlate. reflexivity.
Qed.

(** X11.  [select_all] hands a late match back as it is: when the first
    lookup finds nothing and the second one ends after the timeout, its
    result is returned from inside the loop, and the tag filter
    [node_name] is not applied to it. *)
Theorem select_all_late_match_is_unfiltered (selector : string) (timeout : Z)
    (node_name0 : option string) (_node : option ref)
    (results : list Element) (fuel : nat) (w w1 w2 : World) :
  timeout <> 0 ->
  query_selector_all E (S fuel) selector _node w = (Return [], w1) ->
  query_selector_all E (S fuel) selector _node (tick E EvAwaitTab w1) =
    (Return results, w2) ->
  timeout < clock w2 - clock w ->
  select_all E (S fuel) selector timeout node_name0 _node w = (Return results, w2).
Proof.
  intros Hnz Hfirst Hsecond Hlate.
  assert (Htruthy : negb (timeout =? 0) = true).
  { destruct (Z.eqb_spec timeout 0); [contradiction | reflexivity]. }
  unfold select_all.
  rewrite (bind_return _ _ _ _ _ (loop_time_run w)).
  rewrite (bind_return _ _ _ _ _ Hfirst). rewrite Htruthy.
  erewrite bind_return; cycle 1.
  { cbn [select_all_loop results_truthy].
    rewrite (bind_return _ _ _ _ _ (await_tab_run E w1)).
    rewrite (bind_return _ _ _ _ _ Hsecond).
    rewrite (bind_return _ _ _ _ _ (loop_time_run w2)).
    apply Z.ltb_lt in Hlate. rewrite Hlate. reflexivity. }
  reflexivity.
Qed.

End Answered.

Lemma query_selector_all_lists_resolved_ids_witness :
  let E := Bench.browser 0 [5; 9; 3] 0 Bench.no_script in
  fst (query_selector_all E 1 "span, button" None Bench.w0) =
    Return [Bench.button_elem; Bench.span_elem].
Proof.
  intros E.
  destruct (query_selector_all_lists_resolved_ids E "span, button"
              Bench.document [5; 9; 3] 0 Bench.w0 eq_refl eq_refl) as [H _].
  - intros nid nd [<-|[<-|[<-|[]]]] Hfound; vm_compute in Hfound;
      try discriminate Hfound; injection Hfound as <-; eexists; reflexivity.
  - exact H.
Defined.

Lemma late_match_is_lost_witness :
  fst (select Script.late 1 "button" 1000 None Bench.w0) = Return ItemNone /\
  fst (query_selector Script.late 1 "button" None
         (tick Script.late EvAwaitTab
            (snd (query_selector Script.late 1 "button" None Bench.w0))))
    = Return (ItemElement Bench.button_elem).
Proof.
  split; [|reflexivity].
  destruct (late_match_is_lost Script.late "button" 1000 None Bench.button_elem 0
              Bench.w0
              (snd (query_selector Script.late 1 "button" None Bench.w0))
              (snd (query_selector Script.late 1 "button" None
                      (tick Script.late EvAwaitTab
                         (snd (query_selector Script.late 1 "button" None Bench.w0)))))
              Bench.w0) as [Hselect _].
  - discriminate.
  - exact (f_equal fst (Hselect eq_refl eq_refl eq_refl)).
Defined.

Lemma select_all_late_match_is_unfiltered_witness :
  fst (select_all Script.late 1 "button" 1000 (Some "span") None Bench.w0) =
    Return [Bench.button_elem].
Proof.
  exact (f_equal fst
    (select_all_late_match_is_unfiltered Script.late "button" 1000 (Some "span")
       None [Bench.button_elem] 0 Bench.w0
       (snd (query_selector_all Script.late 1 "button" None Bench.w0))
       (snd (query_selector_all Script.late 1 "button" None
               (tick Script.late EvAwaitTab
                  (snd (query_selector_all Script.late 1 "button" None Bench.w0)))))
       ltac:(discriminate) eq_refl eq_refl eq_refl)).
Defined.

(* ===================================================================== *)
(** ** The tag filter of select_all; refreshes without end; js_dumps *)
(* ===================================================================== *)

Lemma lower_ascii_idempotent (c : ascii) :
  lower_ascii (lower_ascii c) = lower_ascii c.
Proof.
  destruct c as [[] [] [] [] [] [] [] []]; reflexivity.
Qed.

Lemma lower_idempotent (s : string) : lower (lower s) = lower s.
Proof.
  induction s as [|c rest IH]; simpl; [reflexivity|].
  now rewrite lower_ascii_idempotent, IH.
Qed.

Lemma str_truthy_lower (s : string) : str_truthy (lower s) = str_truthy s.
Proof. destruct s; reflexivity. Qed.

(** X12.  The tag filter of [select_all] does not depend on the case of the
    name it is given, and an empty name is no filter. *)
Theorem select_all_filter_ignores_case (E : Env) (fuel : nat)
    (selector : string) (timeout : Z) (name : string) (_node : option ref)
    (w : World) :
  select_all E fuel selector timeout (Some name) _node w =
    select_all E fuel selector timeout (Some (lower name)) _node w /\
  select_all E fuel selector timeout (Some "") _node w =
    select_all E fuel selector timeout None _node w.
Proof.
  split; [|reflexivity].
  unfold select_all, bind.
  destruct (loop_time w) as [[now| |] w0]; try reflexivity.
  destruct (query_selector_all E fuel selector _node w0) as [[results| |] w1];
    try reflexivity.
  destruct ((if negb (timeout =? 0)
             then select_all_loop E fuel fuel selector timeout _node now results
             else ret (inr results)) w1) as [[[returned|kept]| |] w2];
    try reflexivity.
  destruct (negb (results_truthy kept)); [reflexivity|].
  rewrite str_truthy_lower. destruct (str_truthy name); [|reflexivity].
  now rewrite lower_idempotent.
Qed.

Lemma count_updates_app (events more : list Event) :
  count_updates (events ++ more) = (count_updates events + count_updates more)%nat.
Proof.
  induction events as [|[] rest IH]; simpl; try exact IH; [reflexivity|].
  now rewrite IH.
Qed.

(** X13.  While the browser keeps answering a scoped [query_selector_all]
    with the stale-node error, every attempt is followed by another refresh
    and another attempt: a run that is given [attempts] attempts has
    refreshed the node [attempts] times and has not ended.  The guard that
    should stop the second retry is stored under [_Tab__last] and read
    under [__last]. *)
Theorem stale_node_is_refreshed_every_time (E : Env) (selector : string)
    (r : ref) :
  (forall n nid, node_not_found (on_query_selector_all E n nid selector)) ->
  (forall n nd,
     String.eqb (node_name nd) "IFRAME" = false ->
     String.eqb (node_name (on_update E n nd)) "IFRAME" = false) ->
  forall attempts w o,
    heap w !! r = Some o ->
    String.eqb (node_name (obj_node o)) "IFRAME" = false ->
    truthy (guard_of o) = false ->
    let run := query_selector_all E attempts selector (Some r) w in
    fst run = OutOfFuel /\
    count_updates (trace (snd run)) = (count_updates (trace w) + attempts)%nat.
Proof.
  intros Hstale Hname.
  induction attempts as [|attempts IH]; intros w o Hheap Ho Hguard run.
  - subst run. simpl. split; [reflexivity | lia].
  - subst run.
    rewrite (query_selector_all_retry_step E selector r o (obj_node o) attempts w);
      auto; [|unfold scope_doc; now rewrite Ho].
    destruct (IH (after_refresh E r o
                    (QuerySelectorAll (node_id (obj_node o)) selector) w)
                 (refreshed E (S (steps w)) o)) as [Hout Hcount].
    + unfold after_refresh. cbn [heap]. apply lookup_insert_eq.
    + unfold refreshed. cbn [obj_node]. apply Hname. exact Ho.
    + rewrite guard_of_refreshed. exact Hguard.
    + split; [exact Hout|]. rewrite Hcount.
      unfold after_refresh. cbn [trace]. rewrite !count_updates_app. simpl. lia.
Qed.

Lemma stale_node_is_refreshed_every_time_witness :
  let E := Script.failing Bench.stale_message Script.enabled in
  let run := query_selector_all E 7 "button" (Some 1%positive) Bench.w_scoped in
  fst run = OutOfFuel /\
  count_updates (trace (snd run)) = (count_updates (trace Bench.w_scoped) + 7)%nat.
Proof.
  intros E.
  assert (Hstale : forall n nid,
            node_not_found (on_query_selector_all E n nid "button")).
  { intros n nid. exists Bench.stale_message. split; reflexivity. }
  assert (Hname : forall n nd,
            String.eqb (node_name nd) "IFRAME" = false ->
            String.eqb (node_name (on_update E n nd)) "IFRAME" = false).
  { intros n nd H. exact H. }
  exact (stale_node_is_refreshed_every_time E "button" 1%positive Hstale Hname
           7%nat Bench.w_scoped Bench.body_obj eq_refl eq_refl eq_refl).
Defined.

(** X14.  [js_dumps] has no test for a missing response: when the first
    script, or the second one after a first exception, is answered with
    nothing at all, the tuple unpacking fails with a [TypeError], where
    [evaluate] raises [JavascriptSyntaxException]. *)
Theorem js_dumps_without_response (E : Env) (obj_name expression : string)
    (return_by_value await_promise : bool) (w : World) :
  (on_evaluate E (steps w) (js_code_a obj_name) = Ok None ->
   fst (js_dumps E obj_name return_by_value w) =
     Raise (TypeError "cannot unpack non-iterable NoneType object")) /\
  (forall remote_object details,
     on_evaluate E (steps w) (js_code_a obj_name) =
       Ok (Some (remote_object, Some details)) ->
     on_evaluate E (S (steps w)) (js_code_b obj_name) = Ok None ->
     fst (js_dumps E obj_name return_by_value w) =
       Raise (TypeError "cannot unpack non-iterable NoneType object")) /\
  (on_evaluate E (steps w) (Envelope expression) = Ok None ->
   fst (evaluate E expression await_promise return_by_value w) =
     Raise JavascriptSyntaxException).
Proof.
  split; [|split].
  - intros Hfirst. unfold js_dumps.
    erewrite bind_raise; [reflexivity|].
    erewrite bind_return; [|apply send_ok; exact Hfirst]. reflexivity.
  - intros remote_object details Hfirst Hsecond. unfold js_dumps.
    erewrite bind_return; cycle 1.
    { erewrite bind_return; [|apply send_ok; exact Hfirst]. reflexivity. }
    cbn [snd].
    erewrite bind_raise; [reflexivity|].
    erewrite bind_return; [|apply send_ok; exact Hsecond]. reflexivity.
  - intros Hreply. unfold evaluate.
    erewrite bind_return; [|apply send_ok; exact Hreply]. reflexivity.
Qed.

Lemma js_dumps_without_response_witness :
  fst (js_dumps Bench.quiet "window" true Bench.w0) =
    Raise (TypeError "cannot unpack non-iterable NoneType object") /\
  fst (evaluate Bench.quiet "1+1" false true Bench.w0) =
    Raise JavascriptSyntaxException.
Proof.
  destruct (js_dumps_without_response Bench.quiet "window" "1+1" true false
              Bench.w0) as (Hdump & _ & Heval).
  split; [exact (Hdump eq_refl) | exact (Heval eq_refl)].
Defined.

(** X22.  For a selector that never matches, [wait_for] ends in its
    not-found error: not before the timeout has passed and, when the
    protocol calls themselves take no time, at most one retry interval
    (500 ms) after it. *)
Theorem wait_for_gives_up_with_error (E : Env) (selector : string)
    (query : option string) (timeout : Z) (fuel : nat) (w : World) :
  never_matches E selector ->
  str_truthy selector = true ->
  0 <= timeout ->
  timeout < 500 * Z.of_nat fuel ->
  exists w',
    wait_for E (S fuel) (Some selector) query timeout w =
      (Raise (ElementWithSelectorNotFoundException selector), w') /\
    timeout < clock w' - clock w /\
    ((forall n, latency E n = 0%N) -> clock w' - clock w <= timeout + 500).
Proof. apply wait_for_selector_raises_not_found. Qed.

Lemma wait_for_gives_up_with_error_witness :
  exists w',
    wait_for Bench.quiet 4 (Some "a.missing") None 1000 Bench.w0 =
      (Raise (ElementWithSelectorNotFoundException "a.missing"), w') /\
    1000 < clock w' - clock Bench.w0 /\
    ((forall n, latency Bench.quiet n = 0%N) ->
     clock w' - clock Bench.w0 <= 1000 + 500).
Proof.
  apply (wait_for_gives_up_with_error Bench.quiet "a.missing" None 1000 3
           Bench.w0).
  - apply quiet_never_matches.
  - reflexivity.
  - discriminate.
  - reflexivity.
Defined.

(* ===================================================================== *)
(** ** What a text search returns *)
(* ===================================================================== *)

Section TextFilters.

Variable E : Env.

Lemma append_safe_respects_filters (type : option string) (query : string)
    (exact_match : bool) (results : list Element) (elem : Element) :
  Forall (passes_filters type query exact_match) results ->
  (if opt_str_truthy type
   then issametype (node elem) (default "" type) = true
   else isbanned (node elem) = false) ->
  Forall (passes_filters type query exact_match)
    (append_safe results elem query exact_match).
Proof.
  intros Hall Htag. unfold append_safe.
  destruct exact_match eqn:Hexact.
  - destruct (String.eqb_spec query (text elem)) as [Heq|Hne]; [|exact Hall].
    apply Forall_app. split; [exact Hall|].
    constructor; [|constructor]. split; [exact Htag | intros _; now symmetry].
  - apply Forall_app. split; [exact Hall|].
    constructor; [|constructor]. split; [exact Htag | discriminate].
Qed.

Lemma checktextnodeandappend_respects_filters (type : option string)
    (query : string) (exact_match : bool) (results results' : list Element)
    (elem : Element) (w w' : World) :
  Forall (passes_filters type query exact_match) results ->
  checktextnodeandappend E type results elem query exact_match w =
    (Return results', w') ->
  Forall (passes_filters type query exact_match) results'.
Proof.
  intros Hall Hrun.
  unfold checktextnodeandappend, bind, element_update, ret in Hrun.
  repeat match type of Hrun with
         | context [if ?b then _ else _] => destruct b eqn:?
         | context [match ?x with _ => _ end] => destruct x eqn:?
         end.
  all: simplify_eq; try exact Hall.
  all: apply append_safe_respects_filters; [exact Hall|]; simpl.
  all: repeat match goal with
              | H : str_truthy _ = _ |- _ => rewrite H
              | H : negb _ = true |- _ => apply negb_true_iff in H
              end; assumption.
Qed.

Lemma scan_hits_respects_filters (type : option string) (query : string)
    (exact_match : bool) (doc : option Node) (node_ids : list Z) :
  forall results w scanned w',
    Forall (passes_filters type query exact_match) results ->
    scan_hits E doc type query exact_match node_ids results w =
      (Return scanned, w') ->
    match scanned with
    | inl first => passes_filters type query exact_match first
    | inr kept => Forall (passes_filters type query exact_match) kept
    end.
Proof.
  induction node_ids as [|nid rest IH]; intros results w scanned w' Hall.
  - simpl. intros H. injection H as <- _. exact Hall.
  - cbn [scan_hits]. destruct results as [|first others].
    + destruct (create E _ doc) as [elem|]; [|apply IH; exact Hall].
      unfold bind at 1.
      destruct (checktextnodeandappend E type [] elem query exact_match w)
        as [[results'| |] w1] eqn:Hcheck; try discriminate.
      apply IH.
      exact (checktextnodeandappend_respects_filters _ _ _ _ _ _ _ _ Hall Hcheck).
    + intros H. injection H as <- _. now inversion Hall.
Qed.

Lemma find_element_by_text_respects_filters (type : option string)
    (query : string) (exact_match : bool) (best_match flag : bool)
    (elem : Element) (w w' : World) :
  find_element_by_text E query best_match flag type exact_match w =
    (Return (Some elem), w') ->
  passes_filters type query exact_match elem.
Proof.
  unfold find_element_by_text, bind.
  destruct (send E GetDocument _ w) as [[doc| |] w1]; try discriminate.
  destruct (send E (PerformSearch query) _ w1) as [[[search_id nresult]| |] w2];
    try discriminate.
  destruct (send E (GetSearchResults _ _ _) _ w2) as [[node_ids| |] w3];
    try discriminate.
  destruct (send E (DiscardSearchResults _) _ w3) as [[[]| |] w4];
    try discriminate.
  destruct (scan_hits E doc type query exact_match node_ids [] w4)
    as [[[first|kept]| |] w5] eqn:Hscan; try discriminate.
  - intros H. injection H as <- _.
    exact (scan_hits_respects_filters _ _ _ _ _ _ _ _ _ (List.Forall_nil _) Hscan).
  - pose proof (scan_hits_respects_filters _ _ _ _ _ _ _ _ _ (List.Forall_nil _) Hscan)
      as Hkept.
    unfold finally, ret. destruct kept as [|kept_first others].
    + destruct (send E DomDisable _ w5) as [[[]| |] w6]; discriminate.
    + destruct (send E DomDisable _ w5) as [[[]| |] w6]; try discriminate.
      intros H. injection H as <- _. now inversion Hkept.
Qed.

End TextFilters.

(** X15.  Whatever [find] returns has passed the filters of the search: its
    tag is the one asked for with [type], or, without [type], none of
    title, meta, script, link, style, head; and with [exact_match] its text
    is the query. *)
Theorem find_respects_filters (E : Env) (fuel : nat) (query : string)
    (best_match flag : bool) (timeout : Z) (type : option string)
    (exact_match : bool) (elem : Element) (w : World) :
  fst (find E fuel query best_match flag timeout type exact_match w) =
    Return (Some elem) ->
  passes_filters type query exact_match elem.
Proof.
  assert (Hloop : forall n now item w0,
    match item with
    | Some e => passes_filters type query exact_match e
    | None => True
    end ->
    fst (find_loop E n query best_match flag timeout type exact_match now item w0)
      = Return (Some elem) ->
    passes_filters type query exact_match elem).
  { induction n as [|n IH]; intros now item w0 Hitem.
    - simpl. destruct item as [e|]; simpl; [|discriminate].
      intros H. now injection H as <-.
    - cbn [find_loop]. destruct item as [e|]; simpl.
      + intros H. now injection H as <-.
      + unfold bind at 1. rewrite await_tab_run. unfold bind at 1.
        destruct (find_element_by_text E query best_match flag type exact_match _)
          as [[item'| |] w1] eqn:Hfind; try discriminate.
        unfold bind at 1. rewrite loop_time_run.
        destruct (timeout <? clock w1 - now); [discriminate|].
        unfold bind at 1. rewrite sleep_run.
        apply IH. destruct item' as [e|]; [|exact I].
        exact (find_element_by_text_respects_filters E type query exact_match
                 _ _ _ _ _ Hfind). }
  unfold find. unfold bind at 1. rewrite loop_time_run. unfold bind at 1.
  destruct (find_element_by_text E query best_match flag type exact_match w)
    as [[item| |] w1] eqn:Hfind; try discriminate.
  assert (Hitem : match item with
                  | Some e => passes_filters type query exact_match e
                  | None => True
                  end).
  { destruct item as [e|]; [|exact I].
    exact (find_element_by_text_respects_filters E type query exact_match
             _ _ _ _ _ Hfind). }
  destruct (negb (timeout =? 0)).
  - apply Hloop. exact Hitem.
  - simpl. intros H. injection H as ->. exact Hitem.
Qed.

Lemma find_respects_filters_witness :
  passes_filters None "login" false Bench.span_elem.
Proof.
  apply (find_respects_filters Bench.quiet 1 "login" false true 10000 None false
           Bench.span_elem Bench.w0).
  reflexivity.
Defined.

Section TextFiltersAll.

Variable E : Env.
Variable R : ResolveEnv.

Lemma gather_hits_respects_filters (type : option string) (query : string)
    (exact_match : bool) (doc : option Node) (node_ids : list Z) :
  forall results log gathered log' w w',
    Forall (passes_filters type query exact_match) results ->
    gather_hits E R doc type query exact_match node_ids results log w =
      (Return (gathered, log'), w') ->
    Forall (passes_filters type query exact_match) gathered.
Proof.
  induction node_ids as [|nid rest IH];
    intros results log gathered log' w w' Hall.
  - simpl. intros H. injection H as <- _ _. exact Hall.
  - cbn [gather_hits].
    destruct (filter_recurse E doc _) as [nd|].
    + destruct (create E (Some nd) doc) as [elem|]; [|apply IH; exact Hall].
      unfold bind at 1.
      destruct (checktextnodeandappend E type results elem query exact_match w)
        as [[results'| |] w1] eqn:Hcheck; try discriminate.
      apply IH.
      exact (checktextnodeandappend_respects_filters E _ _ _ _ _ _ _ _ Hall Hcheck).
    + unfold bind at 1.
      destruct (send_resolve_node E R nid log w)
        as [[[[remote_object|] log1]| |] w1]; try discriminate.
      * destruct (create_resolved R remote_object doc) as [elem|];
          [|apply IH; exact Hall].
        unfold bind at 1.
        destruct (checktextnodeandappend E type results elem query exact_match w1)
          as [[results'| |] w2] eqn:Hcheck; try discriminate.
        apply IH.
        exact (checktextnodeandappend_respects_filters E _ _ _ _ _ _ _ _ Hall Hcheck).
      * apply IH. exact Hall.
Qed.

Lemma find_elements_by_text_respects_filters (type : option string)
    (query : string) (exact_match : bool) (tag_hint : option string)
    (log log' : ResolveLog) (results : list Element) (w w' : World) :
  find_elements_by_text E R query tag_hint type exact_match log w =
    (Return (results, log'), w') ->
  Forall (passes_filters type query exact_match) results.
Proof.
  unfold find_elements_by_text, bind.
  destruct (send E GetDocument _ w) as [[doc| |] w1]; try discriminate.
  destruct (send E (PerformSearch query) _ w1) as [[[search_id nresult]| |] w2];
    try discriminate.
  match goal with
  | |- context [(if ?c then ?a else ?b) w2] =>
      destruct ((if c then a else b) w2) as [[node_ids| |] w3]
  end; try discriminate.
  destruct (send E (DiscardSearchResults _) _ w3) as [[[]| |] w4];
    try discriminate.
  destruct (gather_hits E R doc type query exact_match node_ids [] log w4)
    as [[[gathered log1]| |] w5] eqn:Hgather; try discriminate.
  destruct (send E DomDisable _ w5) as [[[]| |] w6]; try discriminate.
  unfold ret. intros H. injection H as <- _ _.
  exact (gather_hits_respects_filters _ _ _ _ _ _ _ _ _ _ _
           (List.Forall_nil _) Hgather).
Qed.

(** X16.  Every element [find_all] returns has passed the filters of the
    search: the tag asked for with [type], or a tag outside the banned set
    without it; and the query as its text with [exact_match].  The
    [tag_hint] of [find_elements_by_text] plays no part. *)
Theorem find_all_respects_filters (fuel : nat) (query : string) (timeout : Z)
    (type : option string) (exact_match : bool) (log log' : ResolveLog)
    (results : list Element) (w w' : World) :
  find_all E R fuel query timeout type exact_match log w =
    (Return (results, log'), w') ->
  Forall (passes_filters type query exact_match) results /\
  (forall tag_hint log0 w0,
     find_elements_by_text E R query tag_hint type exact_match log0 w0 =
     find_elements_by_text E R query None type exact_match log0 w0).
Proof.
  intros Hrun. split; [|reflexivity].
  assert (Hloop : forall n now found log0 ended log1 w0 w1,
    Forall (passes_filters type query exact_match) found ->
    find_all_loop E R n query timeout type exact_match now found log0 w0 =
      (Return (ended, log1), w1) ->
    Forall (passes_filters type query exact_match)
      (match ended with inl l => l | inr l => l end)).
  { induction n as [|n IH]; intros now found log0 ended log1 w0 w1 Hfound.
    - simpl. destruct (results_truthy found); [|discriminate].
      unfold ret. intros H. injection H as <- _ _. exact Hfound.
    - cbn [find_all_loop]. destruct (results_truthy found).
      + unfold ret. intros H. injection H as <- _ _. exact Hfound.
      + unfold bind at 1. rewrite await_tab_run. unfold bind at 1.
        destruct (find_elements_by_text E R query None type exact_match log0 _)
          as [[[results' log2]| |] w2] eqn:Hfind; try discriminate.
        unfold bind at 1. rewrite loop_time_run.
        destruct (timeout <? clock w2 - now).
        * unfold ret. intros H. injection H as <- _ _. constructor.
        * unfold bind at 1. rewrite sleep_run. apply IH.
          exact (find_elements_by_text_respects_filters _ _ _ _ _ _ _ _ _ Hfind). }
  revert Hrun. unfold find_all. unfold bind at 1. rewrite loop_time_run.
  unfold bind at 1.
  destruct (find_elements_by_text E R query None type exact_match log w)
    as [[[found log1]| |] w1] eqn:Hfind; try discriminate.
  pose proof (find_elements_by_text_respects_filters _ _ _ _ _ _ _ _ _ Hfind)
    as Hfound.
  unfold bind at 1.
  match goal with
  | |- context [(if ?c then ?a else ?b) w1] =>
      destruct ((if c then a else b) w1) as [[[ended log2]| |] w2] eqn:Hended
  end; try discriminate.
  assert (Hended' : Forall (passes_filters type query exact_match)
                      (match ended with inl l => l | inr l => l end)).
  { destruct (negb (timeout =? 0)).
    - exact (Hloop _ _ _ _ _ _ _ _ Hfound Hended).
    - unfold ret in Hended. injection Hended as <- _ _. exact Hfound. }
  destruct ended as [returned|kept]; unfold ret; intros H;
    injection H as <- _ _; exact Hended'.
Qed.

End TextFiltersAll.

Lemma find_all_respects_filters_witness :
  let run := find_all (Script.searching [4; 6]) Script.unresolved 1 "login"
               10000 None true [] Bench.w0 in
  fst run = Return ([Bench.button_elem], []) /\
  Forall (passes_filters None "login" true) [Bench.button_elem].
Proof.
  intros run. split; [reflexivity|].
  apply (find_all_respects_filters (Script.searching [4; 6]) Script.unresolved
           1 "login" 10000 None true [] [] [Bench.button_elem] Bench.w0
           (snd run)).
  reflexivity.
Defined.

(* ===================================================================== *)
(** ** Polling a text that is never found *)
(* ===================================================================== *)

Section TextPolling.

Variable E : Env.
Variable R : ResolveEnv.
Variable query : string.
Variable timeout : Z.
Hypothesis no_hit : text_never_found E query.

Lemma find_element_by_text_no_hit (best_match flag : bool)
    (type : option string) (exact_match : bool) (w : World) :
  exists w',
    find_element_by_text E query best_match flag type exact_match w =
      (Return None, w') /\
    clock w <= clock w'.
Proof.
  destruct no_hit as (Hdoc & Hsearch & Hresults & Hdiscard & Hdisable).
  destruct (Hdoc (steps w)) as [doc Hd].
  destruct (Hsearch (S (steps w))) as [search_id Hs].
  eexists. split.
  - unfold find_element_by_text.
    rewrite (bind_return _ _ _ _ _ (send_ok E _ _ _ _ Hd)).
    erewrite bind_return; [|apply send_ok; exact Hs].
    cbn beta iota.
    erewrite bind_return; [|apply send_ok; apply Hresults].
    erewrite bind_return; [|apply send_ok; apply Hdiscard].
    cbn [scan_hits]. erewrite bind_return; [|reflexivity].
    unfold finally, ret. erewrite send_ok; [reflexivity | apply Hdisable].
  - unfold tick; simpl. lia.
Qed.

Lemma find_elements_by_text_no_hit (tag_hint type : option string)
    (exact_match : bool) (log : ResolveLog) (w : World) :
  exists w',
    find_elements_by_text E R query tag_hint type exact_match log w =
      (Return ([], log), w') /\
    clock w <= clock w'.
Proof.
  destruct no_hit as (Hdoc & Hsearch & Hresults & Hdiscard & Hdisable).
  destruct (Hdoc (steps w)) as [doc Hd].
  destruct (Hsearch (S (steps w))) as [search_id Hs].
  eexists. split.
  - unfold find_elements_by_text.
    rewrite (bind_return _ _ _ _ _ (send_ok E _ _ _ _ Hd)).
    erewrite bind_return; [|apply send_ok; exact Hs].
    cbn beta iota. cbn [Z.eqb negb]. erewrite bind_return; [|reflexivity].
    erewrite bind_return; [|apply send_ok; apply Hdiscard].
    cbn [gather_hits]. erewrite bind_return; [|reflexivity].
    erewrite bind_return; [|apply send_ok; apply Hdisable].
    reflexivity.
  - unfold tick; simpl. lia.
Qed.

Lemma find_loop_gives_up (best_match flag : bool) (type : option string)
    (exact_match : bool) (now : Z) :
  forall fuel w,
    timeout - (clock w - now) < 500 * Z.of_nat fuel ->
    exists w',
      find_loop E (S fuel) query best_match flag timeout type exact_match now
        None w = (Return None, w') /\
      timeout < clock w' - now.
Proof.
  induction fuel as [|fuel IH]; intros w Hleft.
  all: destruct (find_element_by_text_no_hit best_match flag type exact_match
                   (tick E EvAwaitTab w)) as (w2 & Hq & Hclock).
  all: assert (Hw : clock w <= clock w2)
         by (revert Hclock; unfold tick; simpl; lia).
  all: cbn [find_loop is_some].
  all: rewrite (bind_return _ _ _ _ _ (await_tab_run E w)).
  all: rewrite (bind_return _ _ _ _ _ Hq).
  all: rewrite (bind_return _ _ _ _ _ (loop_time_run _)).
  all: destruct (Z.ltb_spec timeout (clock w2 - now)) as [Hout|Hin].
  - exists w2. split; [reflexivity | exact Hout].
  - lia.
  - exists w2. split; [reflexivity | exact Hout].
  - rewrite (bind_return _ _ _ _ _ (sleep_run E 500 w2)).
    apply IH. unfold slept, tick; simpl. lia.
Qed.

Lemma find_all_loop_gives_up (type : option string) (exact_match : bool)
    (now : Z) (log : ResolveLog) :
  forall fuel w,
    timeout - (clock w - now) < 500 * Z.of_nat fuel ->
    exists w',
      find_all_loop E R (S fuel) query timeout type exact_match now [] log w =
        (Return (inl [], log), w') /\
      timeout < clock w' - now.
Proof.
  induction fuel as [|fuel IH]; intros w Hleft.
  all: destruct (find_elements_by_text_no_hit None type exact_match log
                   (tick E EvAwaitTab w)) as (w2 & Hq & Hclock).
  all: assert (Hw : clock w <= clock w2)
         by (revert Hclock; unfold tick; simpl; lia).
  all: cbn [find_all_loop results_truthy].
  all: rewrite (bind_return _ _ _ _ _ (await_tab_run E w)).
  all: rewrite (bind_return _ _ _ _ _ Hq).
  all: rewrite (bind_return _ _ _ _ _ (loop_time_run _)).
  all: destruct (Z.ltb_spec timeout (clock w2 - now)) as [Hout|Hin].
  - exists w2. split; [reflexivity | exact Hout].
  - lia.
  - exists w2. split; [reflexivity | exact Hout].
  - rewrite (bind_return _ _ _ _ _ (sleep_run E 500 w2)).
    apply IH. unfold slept, tick; simpl. lia.
Qed.

(** X17.  For a text that the search never finds and a positive timeout,
    [find] polls until the deadline has passed and returns [None], and
    [find_all] does the same and returns the empty list; neither raises,
    and [DOM.resolveNode] is never sent. *)
Theorem find_and_find_all_give_up_quietly (best_match flag : bool)
    (type : option string) (exact_match : bool) (log : ResolveLog)
    (fuel : nat) (w : World) :
  0 < timeout ->
  timeout < 500 * Z.of_nat fuel ->
  (exists w',
     find E (S fuel) query best_match flag timeout type exact_match w =
       (Return None, w') /\
     timeout < clock w' - clock w) /\
  (exists w',
     find_all E R (S fuel) query timeout type exact_match log w =
       (Return ([], log), w') /\
     timeout < clock w' - clock w).
Proof.
  intros Hpos Hfuel.
  assert (Htruthy : negb (timeout =? 0) = true).
  { destruct (Z.eqb_spec timeout 0); [lia | reflexivity]. }
  split.
  - destruct (find_element_by_text_no_hit best_match flag type exact_match w)
      as (w1 & Hq & Hclock).
    destruct (find_loop_gives_up best_match flag type exact_match (clock w)
                fuel w1) as (w' & Hrun & Hlate); [lia|].
    exists w'. split; [|exact Hlate].
    unfold find.
    rewrite (bind_return _ _ _ _ _ (loop_time_run w)).
    rewrite (bind_return _ _ _ _ _ Hq). rewrite Htruthy.
    exact Hrun.
  - destruct (find_elements_by_text_no_hit None type exact_match log w)
      as (w1 & Hq & Hclock).
    destruct (find_all_loop_gives_up type exact_match (clock w) log fuel w1)
      as (w' & Hrun & Hlate); [lia|].
    exists w'. split; [|exact Hlate].
    unfold find_all.
    rewrite (bind_return _ _ _ _ _ (loop_time_run w)).
    rewrite (bind_return _ _ _ _ _ Hq). cbn beta iota. rewrite Htruthy.
    rewrite (bind_return _ _ _ _ _ Hrun). reflexivity.
Qed.

End TextPolling.

Lemma searching_nothing_never_found (query : string) :
  text_never_found (Script.searching []) query.
Proof.
  repeat split.
  - intros n. eexists. reflexivity.
  - intros n. eexists. reflexivity.
Defined.

Lemma find_and_find_all_give_up_quietly_witness :
  (exists w',
     find (Script.searching []) 4 "Sign in" false true 1000 None false Bench.w0 =
       (Return None, w') /\
     1000 < clock w' - clock Bench.w0) /\
  (exists w',
     find_all (Script.searching []) Script.unresolved 4 "Sign in" 1000 None false
       [] Bench.w0 = (Return ([], []), w') /\
     1000 < clock w' - clock Bench.w0).
Proof.
  apply (find_and_find_all_give_up_quietly (Script.searching []) Script.unresolved
           "Sign in" 1000 (searching_nothing_never_found "Sign in")
           false true None false [] 3 Bench.w0).
  - reflexivity.
  - reflexivity.
Defined.

(* ===================================================================== *)
(** ** The commands of a text search *)
(* ===================================================================== *)

Section SearchCommands.

Variable E : Env.
Variable R : ResolveEnv.

(** X18.  When the search reports no result, [find_elements_by_text] does
    not ask for results: it discards the search, disables the DOM domain
    and returns the empty list.  [find_element_by_text] asks for the empty
    range all the same, and a protocol error of that request ends the call
    before the search is discarded and before the DOM domain is disabled. *)
Theorem search_without_results (query search_id : string) (doc : option Node)
    (w : World) :
  on_get_document E (steps w) = Ok doc ->
  on_perform_search E (S (steps w)) query = Ok (search_id, 0) ->
  (on_discard_search_results E (S (S (steps w))) search_id = Ok tt ->
   on_disable E (S (S (S (steps w)))) = Ok tt ->
   forall tag_hint type exact_match log,
   exists w',
     find_elements_by_text E R query tag_hint type exact_match log w =
       (Return ([], log), w') /\
     trace w' = trace w ++
       [EvSend GetDocument; EvSend (PerformSearch query);
        EvSend (DiscardSearchResults search_id); EvSend DomDisable]) /\
  (forall message,
   on_get_search_results E (S (S (steps w))) search_id 0 0 = Fail message ->
   forall best_match flag type exact_match,
   exists w',
     find_element_by_text E query best_match flag type exact_match w =
       (Raise (ProtocolException message), w') /\
     trace w' = trace w ++
       [EvSend GetDocument; EvSend (PerformSearch query);
        EvSend (GetSearchResults search_id 0 0)]).
Proof.
  intros Hdoc Hsearch. split.
  - intros Hdiscard Hdisable tag_hint type exact_match log.
    eexists. split.
    + unfold find_elements_by_text.
      rewrite (bind_return _ _ _ _ _ (send_ok E _ _ _ _ Hdoc)).
      erewrite bind_return; [|apply send_ok; exact Hsearch].
      cbn beta iota. cbn [Z.eqb negb]. erewrite bind_return; [|reflexivity].
      erewrite bind_return; [|apply send_ok; exact Hdiscard].
      cbn [gather_hits]. erewrite bind_return; [|reflexivity].
      erewrite bind_return; [|apply send_ok; exact Hdisable].
      reflexivity.
    + unfold tick; cbn [trace]. now rewrite <- !app_assoc.
  - intros message Hresults best_match flag type exact_match.
    eexists. split.
    + unfold find_element_by_text.
      rewrite (bind_return _ _ _ _ _ (send_ok E _ _ _ _ Hdoc)).
      erewrite bind_return; [|apply send_ok; exact Hsearch].
      cbn beta iota.
      erewrite bind_raise; [reflexivity|].
      apply send_fail. exact Hresults.
    + unfold tick; cbn [trace]. now rewrite <- !app_assoc.
Qed.

(** X19.  [find_element_by_text] disables the DOM domain only when its scan
    runs to the end of the hits.  When the scan returns the first candidate
    from inside the loop, nothing is sent after it; when the scan ends with
    the hits, [DOM.disable] is sent, and a protocol error of that command
    replaces the answer. *)
Theorem find_element_by_text_disables_dom_at_loop_end (query search_id : string)
    (nresult : Z) (doc : option Node) (node_ids : list Z) (best_match flag : bool)
    (type : option string) (exact_match : bool) (w w1 : World) :
  on_get_document E (steps w) = Ok doc ->
  on_perform_search E (S (steps w)) query = Ok (search_id, nresult) ->
  on_get_search_results E (S (S (steps w))) search_id 0 nresult = Ok node_ids ->
  on_discard_search_results E (S (S (S (steps w)))) search_id = Ok tt ->
  let searched :=
    tick E (EvSend (DiscardSearchResults search_id))
      (tick E (EvSend (GetSearchResults search_id 0 nresult))
         (tick E (EvSend (PerformSearch query))
            (tick E (EvSend GetDocument) w))) in
  let answer := find_element_by_text E query best_match flag type exact_match w in
  (forall first,
     scan_hits E doc type query exact_match node_ids [] searched =
       (Return (inl first), w1) ->
     answer = (Return (Some first), w1)) /\
  (forall kept,
     scan_hits E doc type query exact_match node_ids [] searched =
       (Return (inr kept), w1) ->
     (on_disable E (steps w1) = Ok tt ->
      answer = (Return (head kept), tick E (EvSend DomDisable) w1)) /\
     (forall message, on_disable E (steps w1) = Fail message ->
      answer = (Raise (ProtocolException message), tick E (EvSend DomDisable) w1))).
Proof.
  intros Hdoc Hsearch Hresults Hdiscard searched answer.
  assert (Hprefix : forall scanned,
    scan_hits E doc type query exact_match node_ids [] searched =
      (Return scanned, w1) ->
    answer =
      match scanned with
      | inl first => ret (Some first)
      | inr results =>
          finally
            (match results with
             | [] => ret None
             | elem :: _ => ret (Some elem)
             end)
            (send E DomDisable (on_disable E))
      end w1).
  { intros scanned Hscan. subst answer. unfold find_element_by_text.
    rewrite (bind_return _ _ _ _ _ (send_ok E _ _ _ _ Hdoc)).
    erewrite bind_return; [|apply send_ok; exact Hsearch].
    cbn beta iota.
    erewrite bind_return; [|apply send_ok; exact Hresults].
    erewrite bind_return; [|apply send_ok; exact Hdiscard].
    fold searched. rewrite (bind_return _ _ _ _ _ Hscan). reflexivity. }
  split.
  - intros first Hscan. rewrite (Hprefix _ Hscan). reflexivity.
  - intros kept Hscan. rewrite (Hprefix _ Hscan). split.
    + intros Hdisable. unfold finally.
      destruct kept as [|elem others]; unfold ret;
        rewrite (send_ok E _ _ _ _ Hdisable); reflexivity.
    + intros message Hdisable. unfold finally.
      destruct kept as [|elem others]; unfold ret;
        rewrite (send_fail E _ _ _ _ Hdisable); reflexivity.
Qed.

End SearchCommands.

Lemma search_without_results_witness :
  exists w',
    find_elements_by_text (Script.searching []) Script.unresolved "Sign in" None
      None false [] Bench.w0 = (Return ([], []), w') /\
    trace w' = trace Bench.w0 ++
      [EvSend GetDocument; EvSend (PerformSearch "Sign in");
       EvSend (DiscardSearchResults "search-1"); EvSend DomDisable].
Proof.
  destruct (search_without_results (Script.searching []) Script.unresolved
              "Sign in" "search-1" (Some Bench.document) Bench.w0
              eq_refl eq_refl) as [Hall _].
  exact (Hall eq_refl eq_refl None None false []).
Defined.

Lemma find_element_by_text_disables_dom_at_loop_end_witness :
  trace (snd (find_element_by_text (Script.searching [4; 6]) "login" false true
                None false Bench.w0)) =
    [EvSend GetDocument; EvSend (PerformSearch "login");
     EvSend (GetSearchResults "search-1" 0 2);
     EvSend (DiscardSearchResults "search-1")] /\
  trace (snd (find_element_by_text (Script.searching [6]) "login" false true
                None false Bench.w0)) =
    [EvSend GetDocument; EvSend (PerformSearch "login");
     EvSend (GetSearchResults "search-1" 0 1);
     EvSend (DiscardSearchResults "search-1"); EvSend DomDisable].
Proof.
  split.
  - destruct (find_element_by_text_disables_dom_at_loop_end
                (Script.searching [4; 6]) "login" "search-1" 2
                (Some Bench.document) [4; 6] false true None false Bench.w0
                (snd (find_element_by_text (Script.searching [4; 6]) "login"
                        false true None false Bench.w0))
                eq_refl eq_refl eq_refl eq_refl) as [Hearly _].
    rewrite (Hearly Bench.span_elem eq_refl). reflexivity.
  - destruct (find_element_by_text_disables_dom_at_loop_end
                (Script.searching [6]) "login" "search-1" 1
                (Some Bench.document) [6] false true None false Bench.w0
                (mkWorld 0 4
                   [EvSend GetDocument; EvSend (PerformSearch "login");
                    EvSend (GetSearchResults "search-1" 0 1);
                    EvSend (DiscardSearchResults "search-1")] ∅)
                eq_refl eq_refl eq_refl eq_refl) as [_ Hend].
    destruct (Hend [Bench.button_elem] eq_refl) as [Hok _].
    rewrite (Hok eq_refl). reflexivity.
Defined.

(* ===================================================================== *)
(** ** How long the polling lasts; a zero timeout *)
(* ===================================================================== *)

Section PollingBounds.

Variable E : Env.
Variable selector : string.
Variable timeout : Z.
Hypothesis quiet_page : never_matches E selector.
Hypothesis instant : forall n, latency E n = 0%N.

Lemma tick_instant (ev : Event) (w : World) : clock (tick E ev w) = clock w.
Proof. unfold tick. cbn [clock]. rewrite instant. change (Z.of_N 0) with 0. lia. Qed.

Lemma select_loop_gives_up_soon (now : Z) (qfuel : nat) :
  forall fuel w,
    timeout - (clock w - now) < 500 * Z.of_nat fuel ->
    clock w - now <= timeout + 500 ->
    exists w',
      select_loop E (S fuel) (S qfuel) selector timeout None now ItemNone w =
        (Return ItemNone, w') /\
      timeout < clock w' - now <= timeout + 500.
Proof.
  induction fuel as [|fuel IH]; intros w Hleft Hsoon.
  all: destruct (query_selector_no_match E selector qfuel
                   (tick E EvAwaitTab w) quiet_page) as [d Hq].
  all: cbn [select_loop item_truthy].
  all: rewrite (bind_return _ _ _ _ _ (await_tab_run E w)).
  all: rewrite (bind_return _ _ _ _ _ Hq).
  all: rewrite (bind_return _ _ _ _ _ (loop_time_run _)).
  all: set (w2 := tick E (EvSend (QuerySelector d selector)) _) in *.
  all: assert (Hclock : clock w2 = clock w)
         by (unfold w2; now rewrite !tick_instant).
  all: destruct (Z.ltb_spec timeout (clock w2 - now)) as [Hout|Hin].
  - exists w2. split; [reflexivity | lia].
  - lia.
  - exists w2. split; [reflexivity | lia].
  - rewrite (bind_return _ _ _ _ _ (sleep_run E 500 w2)).
    apply IH; unfold slept; cbn [clock]; rewrite tick_instant; lia.
Qed.

Lemma select_all_loop_gives_up_soon (now : Z) (qfuel : nat) :
  forall fuel w,
    timeout - (clock w - now) < 500 * Z.of_nat fuel ->
    clock w - now <= timeout + 500 ->
    exists w',
      select_all_loop E (S fuel) (S qfuel) selector timeout None now [] w =
        (Return (inl []), w') /\
      timeout < clock w' - now <= timeout + 500.
Proof.
  induction fuel as [|fuel IH]; intros w Hleft Hsoon.
  all: destruct (query_selector_all_no_match E selector qfuel
                   (tick E EvAwaitTab w) quiet_page) as [d Hq].
  all: cbn [select_all_loop results_truthy].
  all: rewrite (bind_return _ _ _ _ _ (await_tab_run E w)).
  all: rewrite (bind_return _ _ _ _ _ Hq).
  all: rewrite (bind_return _ _ _ _ _ (loop_time_run _)).
  all: set (w2 := tick E (EvSend (QuerySelectorAll d selector)) _) in *.
  all: assert (Hclock : clock w2 = clock w)
         by (unfold w2; now rewrite !tick_instant).
  all: destruct (Z.ltb_spec timeout (clock w2 - now)) as [Hout|Hin].
  - exists w2. split; [reflexivity | lia].
  - lia.
  - exists w2. split; [reflexivity | lia].
  - rewrite (bind_return _ _ _ _ _ (sleep_run E 500 w2)).
    apply IH; unfold slept; cbn [clock]; rewrite tick_instant; lia.
Qed.

(** X20.  When the protocol calls themselves take no time, [select] and
    [select_all] give up on a selector that never matches after the timeout
    and at most one retry interval (500 ms) later. *)
Theorem select_gives_up_within_one_interval (node_name0 : option string)
    (fuel : nat) (w : World) :
  0 < timeout ->
  timeout < 500 * Z.of_nat fuel ->
  (exists w',
     select E (S fuel) selector timeout None w = (Return ItemNone, w') /\
     timeout < clock w' - clock w <= timeout + 500) /\
  (exists w',
     select_all E (S fuel) selector timeout node_name0 None w = (Return [], w') /\
     timeout < clock w' - clock w <= timeout + 500).
Proof.
  intros Hpos Hfuel.
  assert (Htruthy : negb (timeout =? 0) = true).
  { destruct (Z.eqb_spec timeout 0); [lia | reflexivity]. }
  split.
  - destruct (query_selector_no_match E selector fuel w quiet_page) as [d Hq].
    set (w1 := tick E (EvSend (QuerySelector d selector)) _) in *.
    assert (Hclock : clock w1 = clock w) by (unfold w1; now rewrite !tick_instant).
    destruct (select_loop_gives_up_soon (clock w) fuel fuel w1)
      as (w' & Hrun & Hlate); [lia | lia |].
    exists w'. split; [|exact Hlate].
    unfold select.
    rewrite (bind_return _ _ _ _ _ (loop_time_run w)).
    rewrite (bind_return _ _ _ _ _ Hq). rewrite Htruthy. exact Hrun.
  - destruct (query_selector_all_no_match E selector fuel w quiet_page) as [d Hq].
    set (w1 := tick E (EvSend (QuerySelectorAll d selector)) _) in *.
    assert (Hclock : clock w1 = clock w) by (unfold w1; now rewrite !tick_instant).
    destruct (select_all_loop_gives_up_soon (clock w) fuel fuel w1)
      as (w' & Hrun & Hlate); [lia | lia |].
    exists w'. split; [|exact Hlate].
    unfold select_all.
    rewrite (bind_return _ _ _ _ _ (loop_time_run w)).
    rewrite (bind_return _ _ _ _ _ Hq). rewrite Htruthy.
    rewrite (bind_return _ _ _ _ _ Hrun). reflexivity.
Qed.

End PollingBounds.

Lemma select_gives_up_within_one_interval_witness :
  (exists w',
     select Bench.quiet 4 "a.missing" 1000 None Bench.w0 = (Return ItemNone, w') /\
     1000 < clock w' - clock Bench.w0 <= 1000 + 500) /\
  (exists w',
     select_all Bench.quiet 4 "a.missing" 1000 (Some "a") None Bench.w0 =
       (Return [], w') /\
     1000 < clock w' - clock Bench.w0 <= 1000 + 500).
Proof.
  apply (select_gives_up_within_one_interval Bench.quiet "a.missing" 1000
           (quiet_never_matches "a.missing") (fun _ => eq_refl) (Some "a") 3
           Bench.w0).
  - reflexivity.
  - reflexivity.
Defined.

(** X21.  A timeout of zero turns the polling off in [select] and
    [select_all]: one lookup, no await, no sleep, and the empty answer at
    once.  It does not in [wait_for], which keeps polling until the clock
    has moved past the start and then raises its not-found error. *)
Theorem zero_timeout (E : Env) (selector : string) (node_name0 query : option string)
    (fuel : nat) (w : World) :
  never_matches E selector ->
  str_truthy selector = true ->
  (exists d,
     select E (S fuel) selector 0 None w =
       (Return ItemNone,
        tick E (EvSend (QuerySelector d selector)) (tick E (EvSend GetDocument) w))) /\
  (exists d,
     select_all E (S fuel) selector 0 node_name0 None w =
       (Return [],
        tick E (EvSend (QuerySelectorAll d selector)) (tick E (EvSend GetDocument) w))) /\
  (exists w',
     wait_for E (S (S fuel)) (Some selector) query 0 w =
       (Raise (ElementWithSelectorNotFoundException selector), w') /\
     0 < clock w' - clock w).
Proof.
  intros Hquiet Hsel. split; [|split].
  - destruct (query_selector_no_match E selector fuel w Hquiet) as [d Hq].
    exists d. unfold select.
    rewrite (bind_return _ _ _ _ _ (loop_time_run w)).
    rewrite (bind_return _ _ _ _ _ Hq). reflexivity.
  - destruct (query_selector_all_no_match E selector fuel w Hquiet) as [d Hq].
    exists d. unfold select_all.
    rewrite (bind_return _ _ _ _ _ (loop_time_run w)).
    rewrite (bind_return _ _ _ _ _ Hq). reflexivity.
  - destruct (wait_for_selector_raises_not_found E selector query 0 (S fuel) w
                Hquiet Hsel) as (w' & Hrun & Hlate & _); [lia | lia |].
    exists w'. split; [exact Hrun | exact Hlate].
Qed.

Lemma zero_timeout_witness :
  fst (select Bench.quiet 1 "a.missing" 0 None Bench.w0) = Return ItemNone /\
  (exists w',
     wait_for Bench.quiet 2 (Some "a.missing") None 0 Bench.w0 =
       (Raise (ElementWithSelectorNotFoundException "a.missing"), w') /\
     0 < clock w' - clock Bench.w0).
Proof.
  destruct (zero_timeout Bench.quiet "a.missing" None None 0 Bench.w0
              (quiet_never_matches "a.missing") eq_refl) as ([d Hsel] & _ & Hwait).
  split; [exact (f_equal fst Hsel) | exact Hwait].
Defined.

(* ===================================================================== *)
(** ** Awaits inside the text search *)
(* ===================================================================== *)

Section TextAwaits.

Variable E : Env.
Variable R : ResolveEnv.

(** X23.  [checktextnodeandappend] awaits only for a text node without
    parent: such a node is refreshed once, and its candidate is the parent
    it has after the refresh or, failing that, the refreshed node itself.
    For every other hit the world is left as it is. *)
Theorem checktextnodeandappend_refreshes_orphan_text (type : option string)
    (results : list Element) (elem : Element) (query : string)
    (exact_match : bool) (w : World) :
  let run := checktextnodeandappend E type results elem query exact_match w in
  (elem_node_type elem <> 3 \/ is_Some (parent elem) -> snd run = w) /\
  (elem_node_type elem = 3 -> parent elem = None ->
   let refreshed_elem := on_element_update E (steps w) elem in
   let final := match parent refreshed_elem with
                | Some enclosing => enclosing
                | None => refreshed_elem
                end in
   snd run = tick E (EvElementUpdate (node_id (node elem))) w /\
   (fst run = Return results \/ fst run = Return (results ++ [final]))).
Proof.
  intros run. subst run. split.
  - intros Hcase. unfold checktextnodeandappend, bind, ret.
    destruct (Z.eqb_spec (elem_node_type elem) 3) as [Htext|Hother].
    + destruct Hcase as [Hne|[enclosing Hparent]]; [contradiction|].
      rewrite Hparent.
      repeat match goal with
             | |- context [if ?b then _ else _] => destruct b
             | |- context [match ?x with _ => _ end] => destruct x
             end; reflexivity.
    + repeat match goal with
             | |- context [if ?b then _ else _] => destruct b
             | |- context [match ?x with _ => _ end] => destruct x
             end; reflexivity.
  - intros Htext Hparent refreshed_elem final.
    unfold checktextnodeandappend, bind, ret, element_update, append_safe.
    rewrite Htext, Hparent. cbn [Z.eqb Pos.eqb]. fold refreshed_elem. fold final.
    repeat match goal with
           | |- context [if ?b then _ else _] => destruct b
           | |- context [match ?x with _ => _ end] => destruct x
           end; split; auto.
Qed.

Lemma gather_hits_resolves_missing (type : option string) (query : string)
    (exact_match : bool) (doc : option Node) (node_ids : list Z) :
  forall results log gathered log' w w',
    gather_hits E R doc type query exact_match node_ids results log w =
      (Return (gathered, log'), w') ->
    List.map snd log' =
      List.map snd log ++ List.filter (missing_from E doc) node_ids.
Proof.
  induction node_ids as [|nid rest IH]; intros results log gathered log' w w'.
  - simpl. intros H. injection H as _ <- _. now rewrite app_nil_r.
  - cbn [gather_hits List.filter]. unfold missing_from at 1.
    destruct (filter_recurse E doc (fun n => node_id n =? nid)) as [nd|];
      cbn [is_some negb].
    + destruct (create E (Some nd) doc) as [elem|]; [|apply IH].
      unfold bind at 1.
      destruct (checktextnodeandappend E type results elem query exact_match w)
        as [[results'| |] w1]; try discriminate.
      apply IH.
    + unfold bind at 1, send_resolve_node.
      destruct (on_resolve_node R (steps w) nid) as [[remote_object|]|message];
        try discriminate.
      * destruct (create_resolved R remote_object doc) as [elem|].
        -- unfold bind at 1.
           match goal with
           | |- context [checktextnodeandappend E type results elem query
                           exact_match ?w0] =>
               destruct (checktextnodeandappend E type results elem query
                           exact_match w0) as [[results'| |] w1]
           end; try discriminate.
           intros H. rewrite (IH _ _ _ _ _ _ H).
           rewrite map_app. simpl. now rewrite <- app_assoc.
        -- intros H. rewrite (IH _ _ _ _ _ _ H).
           rewrite map_app. simpl. now rewrite <- app_assoc.
      * intros H. rewrite (IH _ _ _ _ _ _ H).
        rewrite map_app. simpl. now rewrite <- app_assoc.
Qed.

(** X24.  [find_elements_by_text] sends [DOM.resolveNode] exactly for the
    hits that are missing from the document it fetched, once each and in
    the order of the hits; a hit that the document has is never resolved
    remotely. *)
Theorem find_elements_by_text_resolves_missing_hits (query search_id : string)
    (nresult : Z) (doc : option Node) (node_ids : list Z)
    (tag_hint type : option string) (exact_match : bool)
    (log log' : ResolveLog) (results : list Element) (w w' : World) :
  on_get_document E (steps w) = Ok doc ->
  on_perform_search E (S (steps w)) query = Ok (search_id, nresult) ->
  nresult <> 0 ->
  on_get_search_results E (S (S (steps w))) search_id 0 nresult = Ok node_ids ->
  find_elements_by_text E R query tag_hint type exact_match log w =
    (Return (results, log'), w') ->
  List.map snd log' =
    List.map snd log ++ List.filter (missing_from E doc) node_ids.
Proof.
  intros Hdoc Hsearch Hnz Hresults.
  assert (Htruthy : negb (nresult =? 0) = true).
  { destruct (Z.eqb_spec nresult 0); [contradiction | reflexivity]. }
  unfold find_elements_by_text.
  rewrite (bind_return _ _ _ _ _ (send_ok E _ _ _ _ Hdoc)).
  erewrite bind_return; [|apply send_ok; exact Hsearch].
  cbn beta iota. rewrite Htruthy.
  erewrite bind_return; [|apply send_ok; exact Hresults].
  unfold bind at 1.
  destruct (send E (DiscardSearchResults search_id) _ _) as [[[]| |] w4];
    try discriminate.
  unfold bind at 1.
  destruct (gather_hits E R doc type query exact_match node_ids [] log w4)
    as [[[gathered log1]| |] w5] eqn:Hgather; try discriminate.
  unfold bind at 1.
  destruct (send E DomDisable _ w5) as [[[]| |] w6]; try discriminate.
  unfold ret. intros H. injection H as _ <- _.
  exact (gather_hits_resolves_missing _ _ _ _ _ _ _ _ _ _ _ Hgather).
Qed.

End TextAwaits.

Lemma checktextnodeandappend_refreshes_orphan_text_witness :
  snd (checktextnodeandappend Bench.quiet None [] Bench.span_text_elem "login"
         false Bench.w0) = Bench.w0.
Proof.
  destruct (checktextnodeandappend_refreshes_orphan_text Bench.quiet None []
              Bench.span_text_elem "login" false Bench.w0) as [Hsame _].
  apply Hsame. right. exists Bench.span_elem. reflexivity.
Defined.

Lemma find_elements_by_text_resolves_missing_hits_witness :
  List.map snd
    (snd (match fst (find_elements_by_text (Script.searching [4; 9; 6])
                       Script.unresolved "login" None None false [] Bench.w0) with
          | Return gathered => gathered
          | _ => ([], [])
          end)) = [9].
Proof.
  exact (find_elements_by_text_resolves_missing_hits (Script.searching [4; 9; 6])
           Script.unresolved "login" "search-1" 3 (Some Bench.document) [4; 9; 6]
           None None false []
           [(4%nat, 9)] [Bench.span_elem; Bench.button_elem] Bench.w0
           (snd (find_elements_by_text (Script.searching [4; 9; 6])
                   Script.unresolved "login" None None false [] Bench.w0))
           eq_refl eq_refl ltac:(discriminate) eq_refl eq_refl).
Defined.
